(** * Heritage: the vault contract and the threshold secret engine

    A shallow embedding of [apps/contract/sources/vault.move] (the Sui Move
    module [heritage::vault]) and of the secret-sharing helpers of the web
    client's crypto engine ([splitKey], [recoverKey]), with the properties
    of the specification stated against them. *)

From Stdlib Require Import Arith NArith List String Ascii Bool Lia.
Import ListNotations.

Local Open Scope N_scope.

(** ** The Move execution model

    Move's [u64] is an [N] bounded by [u64_max]; the arithmetic of the
    language aborts the transaction when a result leaves that range.  An
    entry function runs inside a transaction: it reads the sender, creates
    and deletes object identifiers, emits events and transfers coins, and
    either commits all of that or aborts and commits nothing. *)
Module Move.

Definition u64_max : N := 18446744073709551615.

Definition address := N.

(** An object identifier: the digest of the creating transaction and the
    number of identifiers that transaction had created before. *)
Definition ID := (N * N)%type.

(** Where an abort code was raised; codes are only meaningful together
    with their module. *)
Inductive Location := InVault | InBalance.

Inductive Failure :=
| Abort (loc : Location) (code : N)
| ArithmeticError.

Inductive Res (A : Type) :=
| Ok (a : A)
| Err (f : Failure).
Arguments Ok {A} a.
Arguments Err {A} f.

Definition res_bind {A B} (r : Res A) (k : A -> Res B) : Res B :=
  match r with
  | Ok a => k a
  | Err f => Err f
  end.

(** [a + b] on [u64]: Move aborts when the sum does not fit. *)
Definition checked_add (a b : N) : Res N :=
  if a + b <=? u64_max then Ok (a + b) else Err ArithmeticError.

(** [a - b] on [u64]: Move aborts when the difference is negative. *)
Definition checked_sub (a b : N) : Res N :=
  if b <=? a then Ok (a - b) else Err ArithmeticError.

(** Modelled from the spec: [TxContext] of the Sui framework, which is not
    among the sources; the caller, the digest of the transaction and the
    number of identifiers it has created. *)
Record TxContext := {
  sender : address;
  tx_hash : N;
  ids_created : N
}.

(** Modelled from the spec: [Clock] of the Sui framework, which is not
    among the sources; the host's source of the current time, in
    milliseconds. *)
Record Clock := { timestamp_ms : N }.

(** Modelled from the spec: [Coin<SUI>] of the Sui framework, which is not
    among the sources; an object that holds an amount. *)
Record Coin := { coin_id : ID; coin_value : N }.

Section Transactions.
(** The types of the events and of the shared objects of the package
    under execution. *)
Variables Event Object : Type.

(** What a transaction has done so far. *)
Record TxState := {
  ctx : TxContext;
  events : list Event;
  transfers : list (Coin * address);
  shared : list Object;
  deleted : list ID
}.

Definition Tx (A : Type) : Type := TxState -> Res (A * TxState).

Definition ret {A} (a : A) : Tx A := fun st => Ok (a, st).

Definition bind {A B} (m : Tx A) (k : A -> Tx B) : Tx B :=
  fun st =>
    match m st with
    | Ok (a, st') => k a st'
    | Err f => Err f
    end.

Definition lift {A} (r : Res A) : Tx A :=
  fun st =>
    match r with
    | Ok a => Ok (a, st)
    | Err f => Err f
    end.

(** [assert!(cond, code)] *)
Definition assert_ (loc : Location) (cond : bool) (code : N) : Tx unit :=
  fun st => if cond then Ok (tt, st) else Err (Abort loc code).

(** Modelled from the spec: [TxContext::sender] of the Sui framework, which
    is not among the sources; the host supplies the identity of the
    caller. *)
Definition ctx_sender : Tx address :=
  fun st => Ok (sender (ctx st), st).

(** Modelled from the spec: [object::new] of the Sui framework, which is
    not among the sources; an identifier that is unique and assigned at
    creation. *)
Definition object_new : Tx ID :=
  fun st =>
    let c := ctx st in
    Ok ((tx_hash c, ids_created c),
        {| ctx := {| sender := sender c;
                     tx_hash := tx_hash c;
                     ids_created := ids_created c + 1 |};
           events := events st;
           transfers := transfers st;
           shared := shared st;
           deleted := deleted st |}).

(** Modelled from the spec: [object::delete] of the Sui framework, which is
    not among the sources; the object is destroyed. *)
Definition object_delete (i : ID) : Tx unit :=
  fun st =>
    Ok (tt, {| ctx := ctx st;
               events := events st;
               transfers := transfers st;
               shared := shared st;
               deleted := deleted st ++ [i] |}).

(** Modelled from the spec: [event::emit] of the Sui framework, which is
    not among the sources; the audit records are an append-only log. *)
Definition emit (e : Event) : Tx unit :=
  fun st =>
    Ok (tt, {| ctx := ctx st;
               events := events st ++ [e];
               transfers := transfers st;
               shared := shared st;
               deleted := deleted st |}).

(** Modelled from the spec: [transfer::public_transfer] of the Sui
    framework, which is not among the sources; the coin goes to the
    recipient. *)
Definition public_transfer (c : Coin) (recipient : address) : Tx unit :=
  fun st =>
    Ok (tt, {| ctx := ctx st;
               events := events st;
               transfers := transfers st ++ [(c, recipient)];
               shared := shared st;
               deleted := deleted st |}).

(** Modelled from the spec: [transfer::share_object] of the Sui framework,
    which is not among the sources; the object becomes reachable by every
    later transaction. *)
Definition share_object (o : Object) : Tx unit :=
  fun st =>
    Ok (tt, {| ctx := ctx st;
               events := events st;
               transfers := transfers st;
               shared := shared st ++ [o];
               deleted := deleted st |}).

(** Modelled from the spec: [coin::into_balance] of the Sui framework,
    which is not among the sources; the coin object is destroyed, its value
    is the balance. *)
Definition coin_into_balance (c : Coin) : Tx N :=
  bind (object_delete (coin_id c)) (fun _ => ret (coin_value c)).

(** Modelled from the spec: [coin::from_balance] of the Sui framework,
    which is not among the sources; a new coin object holding the balance. *)
Definition coin_from_balance (b : N) : Tx Coin :=
  bind object_new (fun i => ret {| coin_id := i; coin_value := b |}).

(** Modelled from the spec: the execution of a transaction by the ledger
    host, which is not among the sources; every transition is atomic, and
    when the entry function aborts the object and the effects stay as they
    were. *)
Definition execute (f : Object -> Tx Object) (o : Object) (st : TxState)
  : Object * TxState * option Failure :=
  match f o st with
  | Ok (o', st') => (o', st', None)
  | Err e => (o, st, Some e)
  end.

End Transactions.

Arguments ctx {Event Object} _.
Arguments events {Event Object} _.
Arguments transfers {Event Object} _.
Arguments shared {Event Object} _.
Arguments deleted {Event Object} _.
Arguments Build_TxState {Event Object} _ _ _ _ _.
Arguments ret {Event Object A} _ _.
Arguments bind {Event Object A B} _ _ _.
Arguments lift {Event Object A} _ _.
Arguments assert_ {Event Object} _ _ _ _.
Arguments ctx_sender {Event Object} _.
Arguments object_new {Event Object} _.
Arguments object_delete {Event Object} _ _.
Arguments emit {Event Object} _ _.
Arguments public_transfer {Event Object} _ _ _.
Arguments share_object {Event Object} _ _.
Arguments coin_into_balance {Event Object} _ _.
Arguments coin_from_balance {Event Object} _ _.
Arguments execute {Event Object} _ _ _.

(** The abort codes of [sui::balance]; a [Balance<SUI>] is its [u64]
    value. *)
Definition ENotEnough : N := 2.
Definition ENonZero : N := 0.

(** Modelled from the spec: [balance::split] of the Sui framework, which is
    not among the sources; the part split off and the rest. *)
Definition balance_split (self value : N) : Res (N * N) :=
  if value <=? self then Ok (value, self - value)
  else Err (Abort InBalance ENotEnough).

(** Modelled from the spec: [balance::join] of the Sui framework, which is
    not among the sources; the balance grows by the amount joined. *)
Definition balance_join (self b : N) : Res N := checked_add self b.

(** Modelled from the spec: [balance::destroy_zero] of the Sui framework,
    which is not among the sources; only an empty balance can be dropped. *)
Definition balance_destroy_zero (b : N) : Res unit :=
  if b =? 0 then Ok tt else Err (Abort InBalance ENonZero).

Declare Scope move_scope.
Delimit Scope move_scope with move.
Notation "x <- c ;; k" := (bind c (fun x => k))
  (at level 61, c at next level, right associativity) : move_scope.
Notation "c ;; k" := (bind c (fun _ => k))
  (at level 61, right associativity) : move_scope.
Notation "'let?' x := c 'in' k" := (res_bind c (fun x => k))
  (at level 61, x name, c at next level, right associativity) : move_scope.

End Move.

(** ** The module [heritage::vault] *)
Module Vault.
Import Move.
Local Open Scope move_scope.

(** *** Error codes *)
Definition ENotOwner : N := 0.
Definition ENotBeneficiary : N := 1.
Definition EUnlockTimeNotReached : N := 2.
Definition EAlreadyClaimed : N := 3.
Definition EInvalidShares : N := 4.

(** *** Events *)
Inductive Event :=
| LegacyClaimed (beneficiary : address) (blob_id : string)
                (shares : list string) (amount : N)
| VaultCreated (vault_id : ID) (owner beneficiary : address)
               (unlock_time_ms : N)
| VaultCancelled (vault_id : ID) (owner : address) (amount : N)
| HeartbeatUpdated (vault_id : ID) (timestamp : N).

(** *** The vault *)
Record LegacyBox := {
  id : ID;
  owner : address;
  beneficiary : address;
  unlock_time_ms : N;
  last_heartbeat : N;
  encrypted_blob_id : string;
  locked_shares : list string;
  balance : N
}.

Definition set_last_heartbeat (t : N) (v : LegacyBox) : LegacyBox :=
  {| id := id v; owner := owner v; beneficiary := beneficiary v;
     unlock_time_ms := unlock_time_ms v; last_heartbeat := t;
     encrypted_blob_id := encrypted_blob_id v;
     locked_shares := locked_shares v; balance := balance v |}.

Definition set_balance (b : N) (v : LegacyBox) : LegacyBox :=
  {| id := id v; owner := owner v; beneficiary := beneficiary v;
     unlock_time_ms := unlock_time_ms v;
     last_heartbeat := last_heartbeat v;
     encrypted_blob_id := encrypted_blob_id v;
     locked_shares := locked_shares v; balance := b |}.

Definition set_beneficiary (a : address) (v : LegacyBox) : LegacyBox :=
  {| id := id v; owner := owner v; beneficiary := a;
     unlock_time_ms := unlock_time_ms v;
     last_heartbeat := last_heartbeat v;
     encrypted_blob_id := encrypted_blob_id v;
     locked_shares := locked_shares v; balance := balance v |}.

Definition set_unlock_time_ms (t : N) (v : LegacyBox) : LegacyBox :=
  {| id := id v; owner := owner v; beneficiary := beneficiary v;
     unlock_time_ms := t; last_heartbeat := last_heartbeat v;
     encrypted_blob_id := encrypted_blob_id v;
     locked_shares := locked_shares v; balance := balance v |}.

Definition VTx := Tx Event LegacyBox.
Definition VState := TxState Event LegacyBox.

(** [object::id(&vault)] *)
Definition object_id (v : LegacyBox) : ID := id v.

(** *** Entry functions *)

Definition create_vault (beneficiary : address) (unlock_time_ms : N)
    (blob_id share_3 share_4 share_5 : string) (coin : Coin)
    (clock : Clock) : VTx unit :=
  owner <- ctx_sender ;;
  let current_time := timestamp_ms clock in
  let locked_shares := (([] ++ [share_3]) ++ [share_4]) ++ [share_5] in
  uid <- object_new ;;
  bal <- coin_into_balance coin ;;
  let vault :=
    {| id := uid; owner := owner; beneficiary := beneficiary;
       unlock_time_ms := unlock_time_ms; last_heartbeat := current_time;
       encrypted_blob_id := blob_id; locked_shares := locked_shares;
       balance := bal |} in
  let vault_id := object_id vault in
  emit (VaultCreated vault_id owner beneficiary unlock_time_ms) ;;
  share_object vault.

Definition im_alive (vault : LegacyBox) (clock : Clock) : VTx LegacyBox :=
  caller <- ctx_sender ;;
  assert_ InVault (caller =? owner vault) ENotOwner ;;
  let current_time := timestamp_ms clock in
  let vault := set_last_heartbeat current_time vault in
  emit (HeartbeatUpdated (object_id vault) current_time) ;;
  ret vault.

Definition claim_legacy (vault : LegacyBox) (clock : Clock)
    : VTx LegacyBox :=
  caller <- ctx_sender ;;
  assert_ InVault (caller =? beneficiary vault) ENotBeneficiary ;;
  let current_time := timestamp_ms clock in
  unlock_at <- lift (checked_add (last_heartbeat vault)
                                 (unlock_time_ms vault)) ;;
  assert_ InVault (unlock_at <? current_time) EUnlockTimeNotReached ;;
  let amount := balance vault in
  vault <- (if 0 <? amount then
              parts <- lift (balance_split (balance vault) amount) ;;
              payment <- coin_from_balance (fst parts) ;;
              public_transfer payment caller ;;
              ret (set_balance (snd parts) vault)
            else ret vault) ;;
  emit (LegacyClaimed caller (encrypted_blob_id vault)
                      (locked_shares vault) amount) ;;
  ret vault.

(** [cancel_legacy] takes the vault by value and destroys it. *)
Definition cancel_legacy (vault : LegacyBox) : VTx unit :=
  caller <- ctx_sender ;;
  let vault_id := object_id vault in
  assert_ InVault (caller =? owner vault) ENotOwner ;;
  let amount := balance vault in
  (if 0 <? amount then
     payment <- coin_from_balance (balance vault) ;;
     public_transfer payment caller
   else lift (balance_destroy_zero (balance vault))) ;;
  emit (VaultCancelled vault_id (owner vault) amount) ;;
  object_delete (id vault).

Definition add_funds (vault : LegacyBox) (coin : Coin) : VTx LegacyBox :=
  caller <- ctx_sender ;;
  assert_ InVault (caller =? owner vault) ENotOwner ;;
  added <- coin_into_balance coin ;;
  total <- lift (balance_join (balance vault) added) ;;
  ret (set_balance total vault).

Definition update_beneficiary (vault : LegacyBox)
    (new_beneficiary : address) : VTx LegacyBox :=
  caller <- ctx_sender ;;
  assert_ InVault (caller =? owner vault) ENotOwner ;;
  ret (set_beneficiary new_beneficiary vault).

Definition update_unlock_time (vault : LegacyBox)
    (new_unlock_time_ms : N) : VTx LegacyBox :=
  caller <- ctx_sender ;;
  assert_ InVault (caller =? owner vault) ENotOwner ;;
  ret (set_unlock_time_ms new_unlock_time_ms vault).

(** *** View functions *)

Definition get_balance (vault : LegacyBox) : N := balance vault.
Definition get_last_heartbeat (vault : LegacyBox) : N :=
  last_heartbeat vault.
Definition get_unlock_time (vault : LegacyBox) : N := unlock_time_ms vault.

Definition can_claim (vault : LegacyBox) (clock : Clock) : Res bool :=
  let current_time := timestamp_ms clock in
  let? unlock_at := checked_add (last_heartbeat vault)
                                (unlock_time_ms vault) in
  Ok (unlock_at <? current_time).

Definition time_until_claim (vault : LegacyBox) (clock : Clock) : Res N :=
  let current_time := timestamp_ms clock in
  let? unlock_at := checked_add (last_heartbeat vault)
                                (unlock_time_ms vault) in
  if unlock_at <=? current_time then Ok 0
  else checked_sub unlock_at current_time.

(** *** The scenario of the contract's test suite *)
Local Open Scope string_scope.

Definition OWNER : address := 10.
Definition BENEFICIARY : address := 11.
Definition STRANGER : address := 12.
Definition UNLOCK_TIME_MS : N := 86400000.
Definition DEPOSIT_AMOUNT : N := 1000000000.

Definition tx_by (who : address) (hash : N) : VState :=
  {| ctx := {| sender := who; tx_hash := hash; ids_created := 0 |};
     events := []; transfers := []; shared := []; deleted := [] |}.

Definition at_ms (t : N) : Clock := {| timestamp_ms := t |}.

Definition test_vault : LegacyBox :=
  {| id := (1, 0); owner := OWNER; beneficiary := BENEFICIARY;
     unlock_time_ms := UNLOCK_TIME_MS; last_heartbeat := 1000;
     encrypted_blob_id := "blob_id";
     locked_shares := ["share_3"; "share_4"; "share_5"];
     balance := DEPOSIT_AMOUNT |}.

(** A vault whose unlock duration is the largest [u64]: the one
    [create_vault] shares when the owner asks for that duration at
    time 1000. *)
Definition unbounded_vault : LegacyBox :=
  {| id := (1, 0); owner := OWNER; beneficiary := BENEFICIARY;
     unlock_time_ms := u64_max; last_heartbeat := 1000;
     encrypted_blob_id := "blob_id";
     locked_shares := ["share_3"; "share_4"; "share_5"];
     balance := DEPOSIT_AMOUNT |}.

End Vault.


(** ** Sequences of transactions on one vault *)
Module Ledger.
Import Move Vault.

(** The entry functions that borrow the vault, with their arguments other
    than the vault, the clock and the context. *)
Inductive Entry :=
| ImAlive
| ClaimLegacy
| AddFunds (coin : Coin)
| UpdateBeneficiary (new_beneficiary : address)
| UpdateUnlockTime (new_unlock_time_ms : N).

(** A transaction that calls one entry function: who signs it, its digest,
    the time of the clock when it runs and the function called. *)
Record Call := {
  caller : address;
  digest : N;
  now : N;
  entry : Entry
}.

Definition entry_tx (c : Call) (vault : LegacyBox) : VTx LegacyBox :=
  match entry c with
  | ImAlive => im_alive vault (at_ms (now c))
  | ClaimLegacy => claim_legacy vault (at_ms (now c))
  | AddFunds coin => add_funds vault coin
  | UpdateBeneficiary a => update_beneficiary vault a
  | UpdateUnlockTime t => update_unlock_time vault t
  end.

(** What a transaction leaves behind besides the vault. *)
Record Outcome := {
  failure : option Failure;
  emitted : list Event;
  paid : list (Coin * address)
}.

(** Modelled from the spec: the ledger host, which is not among the
    sources, runs a transaction atomically in a context of its own. *)
Definition submit (c : Call) (vault : LegacyBox) : LegacyBox * Outcome :=
  match execute (entry_tx c) vault (tx_by (caller c) (digest c)) with
  | (v, st, f) =>
      (v, {| failure := f; emitted := events st; paid := transfers st |})
  end.

(** Modelled from the spec: the ledger host, which is not among the
    sources, totally orders the transactions on a vault. *)
Fixpoint replay (calls : list Call) (vault : LegacyBox)
  : LegacyBox * list Outcome :=
  match calls with
  | [] => (vault, [])
  | c :: rest =>
      match submit c vault with
      | (v, o) =>
          match replay rest v with
          | (v', os) => (v', o :: os)
          end
      end
  end.

(** The amount that a list of transfers moves. *)
Definition total (payments : list (Coin * address)) : N :=
  fold_right (fun p acc => coin_value (fst p) + acc) 0 payments.

(** The amount that all the transactions of a sequence pay out. *)
Definition paid_out (outcomes : list Outcome) : N :=
  fold_right (fun o acc => total (paid o) + acc) 0 outcomes.

(** The amount that the accepted [add_funds] of a sequence bring in. *)
Definition paid_in (calls : list Call) (outcomes : list Outcome) : N :=
  fold_right
    (fun co acc =>
       match entry (fst co), failure (snd co) with
       | AddFunds coin, None => coin_value coin + acc
       | _, _ => acc
       end)
    0 (combine calls outcomes).

(** A heartbeat that was accepted. *)
Definition accepted_heartbeat (co : Call * Outcome) : Prop :=
  entry (fst co) = ImAlive /\ failure (snd co) = None.

(** The transactions come in the order of the clock. *)
Fixpoint in_clock_order (calls : list Call) : Prop :=
  match calls with
  | [] => True
  | c :: rest =>
      Forall (fun c' => now c <= now c') rest /\ in_clock_order rest
  end.

End Ledger.

(** ** The threshold secret engine *)

(** A JavaScript call either returns or throws an [Error] with a message. *)
Module Js.

Inductive Result (A : Type) :=
| Return (a : A)
| Throw (message : string).
Arguments Return {A} a.
Arguments Throw {A} message.

Definition bind {A B} (r : Result A) (k : A -> Result B) : Result B :=
  match r with
  | Return a => k a
  | Throw m => Throw m
  end.

End Js.

(** The modules [tweetnacl] and [tweetnacl-util], which the repository
    imports and does not contain. *)
Module Nacl.

Definition Bytes := list Byte.byte.

(** The functions of the two modules that the engine calls.
    [randomBytes] reads from an explicit source of randomness;
    [secretbox_open] answers [None] where the JavaScript function
    returns [null]. *)
Class Api := {
  nonceLength : nat;
  keyLength : nat;
  randomBytes : (nat -> N) -> nat -> Bytes;
  secretbox : Bytes -> Bytes -> Bytes -> Js.Result Bytes;
  secretbox_open : Bytes -> Bytes -> Bytes -> Js.Result (option Bytes);
  encodeBase64 : Bytes -> string;
  decodeBase64 : string -> Js.Result Bytes;
  encodeUTF8 : Bytes -> Js.Result string;
  decodeUTF8 : string -> Js.Result Bytes
}.

(** An instance that leaves the message in clear, with the sizes of
    [tweetnacl]; it only shows that the contract assumed of the library
    below can be met. *)
Definition clear_box : Api :=
  {| nonceLength := 24;
     keyLength := 32;
     randomBytes := fun rng n =>
       map (fun i => match Byte.of_N (rng i mod 256) with
                     | Some b => b
                     | None => Byte.x00
                     end) (seq 0 n);
     secretbox := fun m _ _ => Js.Return m;
     secretbox_open := fun c _ _ => Js.Return (Some c);
     encodeBase64 := string_of_list_byte;
     decodeBase64 := fun s => Js.Return (list_byte_of_string s);
     encodeUTF8 := fun b => Js.Return (string_of_list_byte b);
     decodeUTF8 := fun s => Js.Return (list_byte_of_string s) |}.

End Nacl.

(** The field with 256 elements, bytes under exclusive or and carry-less
    multiplication modulo [x^8 + x^4 + x^3 + x^2 + 1]. *)
Module GF256.

(** Modelled from the spec: the finite field of the secret-sharing
    scheme; this is its addition. *)
Definition gf_add (a b : N) : N := N.lxor a b.

(** Modelled from the spec: the finite field of the secret-sharing
    scheme; multiplication by [x]. *)
Definition xtime (a : N) : N :=
  N.lxor (N.land (N.shiftl a 1) 255) (if N.testbit a 7 then 29 else 0).

(** Modelled from the spec: the finite field of the secret-sharing
    scheme; [n] rounds of shift-and-add multiplication. *)
Fixpoint gf_mul_loop (n : nat) (a b : N) : N :=
  match n with
  | O => 0
  | S n' =>
      N.lxor (if N.odd b then a else 0)
             (gf_mul_loop n' (xtime a) (N.div2 b))
  end.

(** Modelled from the spec: the finite field of the secret-sharing
    scheme; this is its multiplication. *)
Definition gf_mul (a b : N) : N := gf_mul_loop 8 a b.

(** Modelled from the spec: the finite field of the secret-sharing
    scheme; powers. *)
Fixpoint gf_pow (a : N) (n : nat) : N :=
  match n with
  | O => 1
  | S n' => gf_mul (gf_pow a n') a
  end.

(** Modelled from the spec: the finite field of the secret-sharing
    scheme; the inverse of a non-zero element is its 254th power. *)
Definition gf_inv (a : N) : N := gf_pow a 254.

(** Modelled from the spec: the finite field of the secret-sharing
    scheme; division. *)
Definition gf_div (a b : N) : N := gf_mul a (gf_inv b).

End GF256.

(** The module [secrets.js-grempe], of which the repository holds the type
    declarations ([types/secrets.d.ts]) only. *)
Module Secrets.
Import GF256.

(** The functions of the module that the engine calls.  [share] draws
    random coefficients; they are read from an explicit source. *)
Class Api (Hex Share : Type) := {
  str2hex : string -> Hex;
  hex2str : Hex -> string;
  share : (nat -> N) -> Hex -> nat -> nat -> Js.Result (list Share);
  combine : list Share -> Js.Result Hex
}.

(** Modelled from the spec: a share of the threshold scheme, which is
    individually tagged with an index; it holds one field element for
    each element of the secret. *)
Record Share := { share_id : N; share_data : list N }.

(** Modelled from the spec: [secrets.str2hex], missing from the sources;
    the key as a sequence of field elements, one for each character. *)
Definition secrets_str2hex (s : string) : list N :=
  map N_of_ascii (list_ascii_of_string s).

(** Modelled from the spec: [secrets.hex2str], missing from the sources;
    the inverse reading of [secrets_str2hex]. *)
Definition secrets_hex2str (h : list N) : string :=
  string_of_list_ascii (map ascii_of_N h).

(** Modelled from the spec: the value at [x] of the polynomial with the
    given coefficients, constant term first. *)
Definition horner (coeffs : list N) (x : N) : N :=
  fold_right (fun c acc => gf_add c (gf_mul acc x)) 0 coeffs.

(** Modelled from the spec: one polynomial for each element of the
    secret; its constant term is that element and its [degree] other
    coefficients are random field elements. *)
Fixpoint polynomials (rng : nat -> N) (degree pos : nat) (secret : list N)
  : list (list N) :=
  match secret with
  | [] => []
  | s :: rest =>
      (s :: map (fun k => rng (pos * degree + k)%nat mod 256)
                (seq 0 degree))
      :: polynomials rng degree (S pos) rest
  end.

(** Modelled from the spec: [secrets.share], missing from the sources; a
    (threshold, numShares) polynomial secret-sharing scheme over a finite
    field: share [x], for [x] from 1 to [numShares], holds the values at
    [x] of polynomials of degree [threshold - 1]. *)
Definition secrets_share (rng : nat -> N) (secret : list N)
    (numShares threshold : nat) : Js.Result (list Share) :=
  let polys := polynomials rng (threshold - 1) 0 secret in
  Js.Return
    (map (fun x => {| share_id := N.of_nat x;
                      share_data :=
                        map (fun p => horner p (N.of_nat x)) polys |})
         (seq 1 numShares)).

(** Modelled from the spec: the value at 0 of the Lagrange basis
    polynomial of the point [xi] among the points [xs]. *)
Definition weight (xs : list N) (xi : N) : N :=
  fold_right (fun xk acc => if xk =? xi then acc
                            else gf_mul acc (gf_div xk (gf_add xi xk)))
             1 xs.

(** Modelled from the spec: Lagrange interpolation at 0 through the
    given points. *)
Definition lagrange0 (pts : list (N * N)) : N :=
  fold_right (fun p acc =>
                gf_add (gf_mul (snd p) (weight (map fst pts) (fst p))) acc)
             0 pts.

(** Modelled from the spec: [secrets.combine], missing from the sources;
    Lagrange interpolation, element by element, through the points that
    the shares hold. *)
Definition secrets_combine (shares : list Share) : Js.Result (list N) :=
  match shares with
  | [] => Js.Return []
  | first :: _ =>
      Js.Return
        (map (fun pos =>
                lagrange0 (map (fun sh => (share_id sh,
                                           nth pos (share_data sh) 0))
                               shares))
             (seq 0 (List.length (share_data first))))
  end.

(** Modelled from the spec: the module as the threshold scheme of
    section 4.2. *)
Definition spec_model : Api (list N) Share :=
  {| str2hex := secrets_str2hex;
     hex2str := secrets_hex2str;
     share := secrets_share;
     combine := secrets_combine |}.

End Secrets.

(** The engine's own functions ([utils/crypto-engine.ts], module 2). *)
Module CryptoEngine.
Import Secrets.
Local Open Scope string_scope.
Local Open Scope nat_scope.

Section SecretBox.
Context (nacl : Nacl.Api).
Import Nacl.

(** [rng] is the randomness that [nacl.randomBytes] consumes.  The
    source also throws when [nacl.secretbox] gives a falsy value, which
    an array never is. *)
Definition encryptPayload (rng : nat -> N) (text aesKey : string)
  : Js.Result string :=
  Js.bind (decodeBase64 aesKey) (fun keyBytes =>
  Js.bind (decodeUTF8 text) (fun textBytes =>
  let nonce := randomBytes rng nonceLength in
  Js.bind (secretbox textBytes nonce keyBytes) (fun ciphertext =>
  let combined := (nonce ++ ciphertext)%list in
  Js.Return (encodeBase64 combined)))).

Definition decryptPayload (encryptedString aesKey : string)
  : Js.Result string :=
  Js.bind (decodeBase64 aesKey) (fun keyBytes =>
  Js.bind (decodeBase64 encryptedString) (fun combined =>
  let nonce := firstn nonceLength combined in
  let ciphertext := skipn nonceLength combined in
  Js.bind (secretbox_open ciphertext nonce keyBytes) (fun decrypted =>
  match decrypted with
  | None =>
      Js.Throw "Decryption failed - invalid key or corrupted data"
  | Some plain => encodeUTF8 plain
  end))).

End SecretBox.

Section Engine.
Context {Hex Share : Type} (secrets : Api Hex Share).

(** [rng] is the randomness that [secrets.share] consumes. *)
Definition splitKey (rng : nat -> N) (aesKey : string)
  : Js.Result (list Share) :=
  let hexKey := str2hex aesKey in
  Js.bind (share rng hexKey 5 3) (fun shares =>
  if negb (List.length shares =? 5)
  then Js.Throw "Failed to generate 5 shares"
  else Js.Return shares).

Definition recoverKey (shares : list Share) : Js.Result string :=
  if List.length shares <? 3
  then Js.Throw "Minimum 3 shares required to recover key"
  else
    Js.bind (combine shares) (fun hexKey =>
    let aesKey := hex2str hexKey in
    Js.Return aesKey).

End Engine.

(** The subsets of [k] elements of a list, each in the order of the
    list. *)
Fixpoint subsets {A} (k : nat) (l : list A) : list (list A) :=
  match k, l with
  | O, _ => [[]]
  | S _, [] => []
  | S k', x :: rest => map (cons x) (subsets k' rest) ++ subsets k rest
  end.

(** Each element of a list together with the others. *)
Fixpoint picks {A} (l : list A) : list (A * list A) :=
  match l with
  | [] => []
  | x :: rest => (x, rest) :: map (fun p => (fst p, x :: snd p)) (picks rest)
  end.

(** The ways to take [k] different elements of a list one after the
    other. *)
Fixpoint arrangements {A} (k : nat) (l : list A) : list (list A) :=
  match k with
  | O => [[]]
  | S k' =>
      flat_map (fun p => map (cons (fst p)) (arrangements k' (snd p)))
               (picks l)
  end.

(** A 32-byte key in Base64 and a source of coefficients for the
    examples. *)
Definition sample_key : string :=
  "q83vEjRWeJASNFZ4kBI0VniQEjRWeJASNFZ4kBI0Vng=".

Definition sample_rng (n : nat) : N := N.of_nat (n * n * 7 + n * 13 + 5).

End CryptoEngine.

(** Notions used to reason about the interpolation through three shares. *)
Module Interpolation.
Import GF256 Secrets.

(** The 256 bytes. *)
Definition bytes : list N := map N.of_nat (seq 0 256).

(** The weighted sum that [lagrange0] computes on three points. *)
Definition blend (w1 w2 w3 y1 y2 y3 : N) : N :=
  N.lxor (gf_mul y1 w1) (N.lxor (gf_mul y2 w2) (N.lxor (gf_mul y3 w3) 0)).

(** The secret element that three shares give for one polynomial. *)
Definition recombine (x1 x2 x3 : N) (p : list N) : N :=
  lagrange0 [(x1, horner p x1); (x2, horner p x2); (x3, horner p x3)].

(** The three points give back the constant term as soon as they do so on
    the polynomials with a single non-zero coefficient. *)
Definition interpolates (x1 x2 x3 : N) : bool :=
  let w1 := weight [x1; x2; x3] x1 in
  let w2 := weight [x1; x2; x3] x2 in
  let w3 := weight [x1; x2; x3] x3 in
  forallb (fun v =>
             (blend w1 w2 w3 (horner [v; 0; 0] x1) (horner [v; 0; 0] x2)
                    (horner [v; 0; 0] x3) =? v)
             && (blend w1 w2 w3 (horner [0; v; 0] x1)
                       (horner [0; v; 0] x2) (horner [0; v; 0] x3) =? 0)
             && (blend w1 w2 w3 (horner [0; 0; v] x1)
                       (horner [0; 0; v] x2) (horner [0; 0; v] x3) =? 0))
          bytes.

(** The share that [secrets_share] builds for the point [x]. *)
Definition share_at (polys : list (list N)) (x : nat) : Share :=
  {| share_id := N.of_nat x;
     share_data := map (fun p => horner p (N.of_nat x)) polys |}.

(** Every polynomial that splits a sequence of bytes with threshold 3 has
    three coefficients, all of them bytes. *)
Definition quadratic (p : list N) : Prop :=
  exists s a b, p = [s; a; b] /\ s < 256 /\ a < 256 /\ b < 256.

(** The polynomials behind [splitKey]. *)
Definition key_polynomials (rng : nat -> N) (aesKey : string)
  : list (list N) :=
  polynomials rng 2 0 (secrets_str2hex aesKey).

End Interpolation.

(** [nacl.box], which the repository imports and does not contain. *)
Module NaclBox.
Import Nacl.

(** The functions of [nacl.box] that the engine calls; [keyPair] reads
    from an explicit source of randomness and gives the public key first. *)
Class Api := {
  box_nonceLength : nat;
  keyPair : (nat -> N) -> Bytes * Bytes;
  box : Bytes -> Bytes -> Bytes -> Bytes -> Js.Result Bytes;
  box_open : Bytes -> Bytes -> Bytes -> Bytes -> Js.Result (option Bytes)
}.

End NaclBox.

(** [JSON], as far as the engine uses it. *)
Module Json.

Record EncryptedSharePackage := {
  ciphertext : string;
  nonce : string;
  ephemeralPublicKey : string
}.

(** [JSON.stringify] and [JSON.parse] on a share package; [parse] throws
    on a text that is not a package. *)
Class Api := {
  stringify : EncryptedSharePackage -> string;
  parse : string -> Js.Result EncryptedSharePackage
}.

End Json.

(** The engine's other functions ([utils/crypto-engine.ts], modules 1 and 3
    and the flow helpers). *)
Module CryptoFlows.
Import Nacl NaclBox Json Secrets CryptoEngine.
Local Open Scope string_scope.
Local Open Scope nat_scope.

(** [array.map(f)] with a callback that can throw: the first exception
    ends the loop. *)
Fixpoint map_throwing {A B} (f : A -> Js.Result B) (l : list A)
  : Js.Result (list B) :=
  match l with
  | [] => Js.Return []
  | a :: rest =>
      Js.bind (f a) (fun b =>
      Js.bind (map_throwing f rest) (fun bs =>
      Js.Return (b :: bs)))
  end.

(** A string is truthy unless it is empty; [null] is not. *)
Definition truthy (s : option string) : bool :=
  match s with
  | Some (String _ _) => true
  | _ => false
  end.

Record KeyPair := { publicKey : string; secretKey : string }.

Record LegacyPayload := {
  heirShare : string;
  walrusShare : string;
  contractShares : list string;
  encryptedBlob : string
}.

Section Flows.
Context (nacl : Nacl.Api) (naclbox : NaclBox.Api) (json : Json.Api).
Context {Hex : Type} (secrets : Secrets.Api Hex string).

Definition generateAESKey (rng : nat -> N) : string :=
  let key := randomBytes rng 32 in
  encodeBase64 key.

(** [rngKeys] and [rngNonce] are the randomness that [nacl.box.keyPair]
    and [nacl.randomBytes] consume.  The source also throws when
    [nacl.box] gives a falsy value, which an array never is. *)
Definition encryptShareForHeir (rngKeys rngNonce : nat -> N)
    (share heirPublicKey : string) : Js.Result string :=
  Js.bind (decodeBase64 heirPublicKey) (fun heirPubKeyBytes =>
  let ephemeralKeyPair := keyPair rngKeys in
  Js.bind (decodeUTF8 share) (fun shareBytes =>
  let nonce := randomBytes rngNonce box_nonceLength in
  Js.bind (box shareBytes nonce heirPubKeyBytes (snd ephemeralKeyPair))
          (fun ciphertext =>
  let package_ :=
    {| ciphertext := encodeBase64 ciphertext;
       nonce := encodeBase64 nonce;
       ephemeralPublicKey := encodeBase64 (fst ephemeralKeyPair) |} in
  Js.Return (stringify package_)))).

Definition decryptShareAsHeir (encryptedPackage heirSecretKey : string)
  : Js.Result string :=
  Js.bind (parse encryptedPackage) (fun package_ =>
  Js.bind (decodeBase64 (ciphertext package_)) (fun ciphertext =>
  Js.bind (decodeBase64 (Json.nonce package_)) (fun nonce =>
  Js.bind (decodeBase64 (ephemeralPublicKey package_))
          (fun ephemeralPublicKey =>
  Js.bind (decodeBase64 heirSecretKey) (fun secretKey =>
  Js.bind (box_open ciphertext nonce ephemeralPublicKey secretKey)
          (fun decrypted =>
  match decrypted with
  | None =>
      Js.Throw "Failed to decrypt share - invalid key or corrupted data"
  | Some plain => encodeUTF8 plain
  end)))))).

Definition generateKeyPair (rng : nat -> N) : KeyPair :=
  let keyPair := keyPair rng in
  {| publicKey := encodeBase64 (fst keyPair);
     secretKey := encodeBase64 (snd keyPair) |}.

Definition isValidKey (key : string) : bool :=
  match decodeBase64 key with
  | Js.Return decoded => List.length decoded =? 32
  | Js.Throw _ => false
  end.

(** [entropy k] is the randomness of the [k]-th random draw.  [splitKey]
    returns five shares or throws, so [shares[0]] to [shares[4]] are
    defined. *)
Definition createLegacyPayload (entropy : nat -> nat -> N)
    (secretNote heirPublicKey : string) : Js.Result LegacyPayload :=
  let aesKey := generateAESKey (entropy 0) in
  Js.bind (encryptPayload nacl (entropy 1) secretNote aesKey)
          (fun encryptedBlob =>
  Js.bind (splitKey secrets (entropy 2) aesKey) (fun shares =>
  Js.bind (encryptShareForHeir (entropy 3) (entropy 4) (nth 2 shares "")
                               heirPublicKey) (fun wrapped3 =>
  Js.bind (encryptShareForHeir (entropy 5) (entropy 6) (nth 3 shares "")
                               heirPublicKey) (fun wrapped4 =>
  Js.bind (encryptShareForHeir (entropy 7) (entropy 8) (nth 4 shares "")
                               heirPublicKey) (fun wrapped5 =>
  let contractShares := [wrapped3; wrapped4; wrapped5] in
  Js.Return {| heirShare := nth 0 shares "";
               walrusShare := nth 1 shares "";
               contractShares := contractShares;
               encryptedBlob := encryptedBlob |}))))).

(** The shares that [claimLegacy] has at hand, in its order. *)
Definition availableShares (heirShare : string)
    (walrusShare : option string) (decryptedContractShares : list string)
  : list string :=
  ([heirShare]
   ++ (if truthy walrusShare
       then match walrusShare with Some w => [w] | None => [] end
       else [])
   ++ decryptedContractShares)%list.

Definition claimLegacy (heirShare : string) (walrusShare : option string)
    (encryptedContractShares : list string)
    (heirSecretKey encryptedBlob : string) : Js.Result string :=
  Js.bind (map_throwing
             (fun encrypted => decryptShareAsHeir encrypted heirSecretKey)
             encryptedContractShares) (fun decryptedContractShares =>
  let availableShares :=
    availableShares heirShare walrusShare decryptedContractShares in
  let sharesToUse := firstn 3 availableShares in
  if List.length sharesToUse <? 3
  then Js.Throw "Not enough shares to recover the secret"
  else
    Js.bind (recoverKey secrets sharesToUse) (fun aesKey =>
    decryptPayload nacl encryptedBlob aesKey)).

End Flows.

End CryptoFlows.

(** What the engine expects of the libraries it imports.  None of this is
    proved of the libraries themselves. *)
Module Contracts.
Import Nacl NaclBox Json Secrets CryptoEngine.

(** [tweetnacl] and [tweetnacl-util]: the codecs are inverse to each other,
    [randomBytes] gives what is asked for, keys have 32 bytes, and a box
    made with a key and a nonce opens with them. *)
Record SecretBoxLaws (nacl : Nacl.Api) : Prop := {
  randomBytes_length :
    forall rng n, List.length (randomBytes rng n) = n;
  decodeBase64_encodeBase64 :
    forall b, decodeBase64 (encodeBase64 b) = Js.Return b;
  decodeUTF8_returns :
    forall s, exists b, decodeUTF8 s = Js.Return b;
  encodeUTF8_decodeUTF8 :
    forall s b, decodeUTF8 s = Js.Return b -> encodeUTF8 b = Js.Return s;
  keyLength_32 : keyLength = 32%nat;
  secretbox_returns :
    forall m n k,
      List.length n = nonceLength -> List.length k = keyLength ->
      exists c, secretbox m n k = Js.Return c;
  secretbox_open_secretbox :
    forall m n k c,
      secretbox m n k = Js.Return c ->
      secretbox_open c n k = Js.Return (Some m)
}.

(** [nacl.box]: what one party boxes for the public key of another, the
    other opens with its secret key and the public key of the first. *)
Record BoxLaws (nacl : Nacl.Api) (naclbox : NaclBox.Api) : Prop := {
  box_returns :
    forall m n rngSender rngRecipient,
      List.length n = box_nonceLength ->
      exists c,
        box m n (fst (keyPair rngRecipient)) (snd (keyPair rngSender))
        = Js.Return c;
  box_open_box :
    forall m n rngSender rngRecipient c,
      box m n (fst (keyPair rngRecipient)) (snd (keyPair rngSender))
      = Js.Return c ->
      box_open c n (fst (keyPair rngSender)) (snd (keyPair rngRecipient))
      = Js.Return (Some m)
}.

(** [JSON]: a package that was written can be read back. *)
Record JsonLaws (json : Json.Api) : Prop := {
  parse_stringify : forall p, parse (stringify p) = Js.Return p
}.

(** [secrets.js-grempe]: the two conversions are inverse to each other,
    and a key split in five with threshold three comes back from any three
    of the shares. *)
Record ThresholdLaws {Hex Share : Type} (secrets : Secrets.Api Hex Share)
  : Prop := {
  hex2str_str2hex : forall s, hex2str (str2hex s) = s;
  combine_share :
    forall rng key,
      exists s1 s2 s3 s4 s5,
        share rng (str2hex key) 5 3 = Js.Return [s1; s2; s3; s4; s5]
        /\ Forall (fun three => combine three = Js.Return (str2hex key))
                  (subsets 3 [s1; s2; s3; s4; s5])
}.

End Contracts.

(** Libraries on which the engine can be run: the box that leaves the
    message in clear, a length-prefixed text for share packages and the
    threshold scheme with its shares written in hexadecimal.  They serve to
    exercise the flows; the properties below hold for every library that
    meets the contract they state. *)
Module Instances.
Import Nacl NaclBox Json Secrets CryptoEngine CryptoFlows.
Local Open Scope string_scope.

(** Key pairs whose two halves are equal and a box that leaves the message
    in clear. *)
Definition clear_envelope : NaclBox.Api :=
  {| box_nonceLength := 24;
     keyPair := fun rng =>
       (@randomBytes clear_box rng 32, @randomBytes clear_box rng 32);
     box := fun m _ _ _ => Js.Return m;
     box_open := fun c _ _ _ => Js.Return (Some c) |}.

(** [n] times the character 1. *)
Fixpoint ones (n : nat) : string :=
  match n with
  | O => ""
  | S n' => String "1" (ones n')
  end.

(** A field of a package: its length in ones, a bar, the field. *)
Definition write_field (s : string) : string :=
  ones (String.length s) ++ String "|" s.

(** The number of ones in front of the bar, and what follows the bar. *)
Fixpoint read_length (s : string) : option (nat * string) :=
  match s with
  | String "1" rest =>
      match read_length rest with
      | Some (n, after) => Some (S n, after)
      | None => None
      end
  | String "|" rest => Some (O, rest)
  | _ => None
  end.

(** The first [n] characters and the others. *)
Fixpoint split_at (n : nat) (s : string) : option (string * string) :=
  match n, s with
  | O, _ => Some ("", s)
  | S n', String c rest =>
      match split_at n' rest with
      | Some (taken, after) => Some (String c taken, after)
      | None => None
      end
  | S _, EmptyString => None
  end.

Definition read_field (s : string) : option (string * string) :=
  match read_length s with
  | Some (n, after) => split_at n after
  | None => None
  end.

Definition write_package (p : EncryptedSharePackage) : string :=
  write_field (ciphertext p) ++ write_field (Json.nonce p)
  ++ write_field (ephemeralPublicKey p).

Definition read_package (s : string) : Js.Result EncryptedSharePackage :=
  match read_field s with
  | Some (c, s1) =>
      match read_field s1 with
      | Some (n, s2) =>
          match read_field s2 with
          | Some (k, EmptyString) =>
              Js.Return {| ciphertext := c; Json.nonce := n;
                           ephemeralPublicKey := k |}
          | _ => Js.Throw "Unexpected end of input"
          end
      | None => Js.Throw "Unexpected end of input"
      end
  | None => Js.Throw "Unexpected token"
  end.

Definition prefixed_text : Json.Api :=
  {| stringify := write_package; parse := read_package |}.

(** The hexadecimal digit of a number below 16. *)
Definition hex_digit (n : N) : ascii :=
  if (n <? 10)%N then ascii_of_N (48 + n) else ascii_of_N (87 + n).

(** The value of a hexadecimal digit. *)
Definition digit_value (c : ascii) : option N :=
  let n := N_of_ascii c in
  if ((48 <=? n) && (n <=? 57))%N then Some (n - 48)%N
  else if ((97 <=? n) && (n <=? 102))%N then Some (n - 87)%N
  else None.

Fixpoint write_bytes (l : list N) : string :=
  match l with
  | [] => ""
  | b :: rest =>
      String (hex_digit (b / 16)) (String (hex_digit (b mod 16))
                                          (write_bytes rest))
  end.

Fixpoint read_bytes (s : string) : option (list N) :=
  match s with
  | EmptyString => Some []
  | String hi (String lo rest) =>
      match digit_value hi, digit_value lo, read_bytes rest with
      | Some h, Some l, Some bs => Some ((16 * h + l)%N :: bs)
      | _, _, _ => None
      end
  | String _ EmptyString => None
  end.

(** A share in hexadecimal: its index, then its elements. *)
Definition write_share (sh : Share) : string :=
  write_bytes (share_id sh :: share_data sh).

Definition read_share (s : string) : Js.Result Share :=
  match read_bytes s with
  | Some (i :: data) => Js.Return {| share_id := i; share_data := data |}
  | _ => Js.Throw "Invalid share"
  end.

(** The threshold scheme of [Secrets.spec_model] with its shares written
    as strings. *)
Definition hex_shares : Secrets.Api (list N) string :=
  {| str2hex := secrets_str2hex;
     hex2str := secrets_hex2str;
     share := fun rng secret numShares threshold =>
       Js.bind (secrets_share rng secret numShares threshold)
               (fun shares => Js.Return (map write_share shares));
     combine := fun shares =>
       Js.bind (map_throwing read_share shares) secrets_combine |}.

(** The randomness of the examples, one source for each draw. *)
Definition sample_entropy (k n : nat) : N :=
  N.of_nat (k * 31 + n * n * 7 + n * 13 + 5).

End Instances.

(** ** The tests of the repository, replayed on the embedding *)
Module VaultTests.
Import Move Vault.
Local Open Scope string_scope.

Example test_create_vault :
  create_vault BENEFICIARY UNLOCK_TIME_MS "blob_id"
      "share_3" "share_4" "share_5"
      {| coin_id := (0, 0); coin_value := DEPOSIT_AMOUNT |}
      (at_ms 1000) (tx_by OWNER 1)
  = Ok (tt,
        {| ctx := {| sender := OWNER; tx_hash := 1; ids_created := 1 |};
           events := [VaultCreated (1, 0) OWNER BENEFICIARY UNLOCK_TIME_MS];
           transfers := [];
           shared := [test_vault];
           deleted := [(0, 0)] |}).
Proof. reflexivity. Qed.

Example test_im_alive_updates_heartbeat :
  exists st, im_alive test_vault (at_ms 50000) (tx_by OWNER 2)
             = Ok (set_last_heartbeat 50000 test_vault, st).
Proof. eexists. vm_compute. reflexivity. Qed.

Example test_im_alive_fails_for_non_owner :
  im_alive test_vault (at_ms 50000) (tx_by STRANGER 2)
  = Err (Abort InVault ENotOwner).
Proof. reflexivity. Qed.

Example test_claim_fails_before_unlock_time :
  claim_legacy test_vault (at_ms 2000) (tx_by BENEFICIARY 2)
  = Err (Abort InVault EUnlockTimeNotReached).
Proof. reflexivity. Qed.

Example test_successful_claim_after_unlock :
  can_claim test_vault (at_ms (1000 + UNLOCK_TIME_MS + 1)) = Ok true /\
  exists v st,
    claim_legacy test_vault (at_ms (1000 + UNLOCK_TIME_MS + 1))
                 (tx_by BENEFICIARY 2) = Ok (v, st)
    /\ get_balance v = 0.
Proof.
  split; [reflexivity|]. do 2 eexists.
  split; [vm_compute; reflexivity | reflexivity].
Qed.

Example test_claim_fails_for_non_beneficiary :
  claim_legacy test_vault (at_ms (1000 + UNLOCK_TIME_MS + 1))
               (tx_by STRANGER 2)
  = Err (Abort InVault ENotBeneficiary).
Proof. reflexivity. Qed.

Example test_time_until_claim :
  time_until_claim test_vault (at_ms 2000) = Ok 86399000 /\
  time_until_claim test_vault (at_ms (1000 + UNLOCK_TIME_MS + 1)) = Ok 0.
Proof. split; reflexivity. Qed.

End VaultTests.

Module EngineTests.
Import Secrets CryptoEngine.

Example test_gf_mul : GF256.gf_mul 87 131 = 49 /\ GF256.gf_mul 2 128 = 29.
Proof. split; vm_compute; reflexivity. Qed.

Example test_gf_inv : GF256.gf_mul 83 (GF256.gf_inv 83) = 1.
Proof. vm_compute. reflexivity. Qed.

Example test_recoverKey_shares_1_3_5 :
  exists s1 s2 s3 s4 s5,
    splitKey spec_model sample_rng sample_key
      = Js.Return [s1; s2; s3; s4; s5]
    /\ recoverKey spec_model [s1; s3; s5] = Js.Return sample_key
    /\ recoverKey spec_model [s5; s2; s4; s1] = Js.Return sample_key.
Proof.
  do 5 eexists. split; [vm_compute; reflexivity |].
  split; vm_compute; reflexivity.
Qed.

Example test_subsets :
  subsets 2 [1; 2; 3] = [[1; 2]; [1; 3]; [2; 3]]
  /\ arrangements 2 [1; 2; 3]
     = [[1; 2]; [1; 3]; [2; 1]; [2; 3]; [3; 1]; [3; 2]].
Proof. split; reflexivity. Qed.

End EngineTests.

Module LedgerTests.
Import Move Vault Ledger.

Example test_add_funds :
  exists st,
    add_funds test_vault {| coin_id := (2, 0); coin_value := 500000000 |}
              (tx_by OWNER 3)
    = Ok (set_balance (DEPOSIT_AMOUNT + 500000000) test_vault, st).
Proof. eexists. vm_compute. reflexivity. Qed.

Example test_update_beneficiary :
  exists v st,
    update_beneficiary test_vault STRANGER (tx_by OWNER 3) = Ok (v, st)
    /\ beneficiary v = STRANGER.
Proof. do 2 eexists. split; [vm_compute; reflexivity | reflexivity]. Qed.

(** A heartbeat, a claim that comes too early, a deposit, a claim, a
    second deposit and a second claim. *)
Example test_replay :
  let calls :=
    [ {| caller := OWNER; digest := 2; now := 50000; entry := ImAlive |};
      {| caller := BENEFICIARY; digest := 3; now := 52000;
         entry := ClaimLegacy |};
      {| caller := OWNER; digest := 4; now := 60000;
         entry := AddFunds {| coin_id := (4, 0); coin_value := 5 |} |};
      {| caller := BENEFICIARY; digest := 5; now := 86450001;
         entry := ClaimLegacy |};
      {| caller := OWNER; digest := 6; now := 86450002;
         entry := AddFunds {| coin_id := (6, 0); coin_value := 7 |} |};
      {| caller := BENEFICIARY; digest := 7; now := 86450003;
         entry := ClaimLegacy |} ] in
  balance (fst (replay calls test_vault)) = 0
  /\ last_heartbeat (fst (replay calls test_vault)) = 50000
  /\ map failure (snd (replay calls test_vault))
     = [None; Some (Abort InVault EUnlockTimeNotReached); None; None; None;
        None]
  /\ paid_out (snd (replay calls test_vault)) = DEPOSIT_AMOUNT + 5 + 7
  /\ paid_in calls (snd (replay calls test_vault)) = 5 + 7.
Proof. cbv zeta. repeat split; vm_compute; reflexivity. Qed.

End LedgerTests.

(** ** Properties of the vault *)
Module VaultProps.
Import Move Vault.
Local Open Scope string_scope.
Local Open Scope list_scope.
Local Open Scope N_scope.

Lemma checked_add_fits (a b : N) :
  a + b <= u64_max -> checked_add a b = Ok (a + b).
Proof.
  intros H. unfold checked_add.
  destruct (N.leb_spec (a + b) u64_max) as [_ | Hgt]; [reflexivity | lia].
Qed.

Lemma checked_add_overflows (a b : N) :
  u64_max < a + b -> checked_add a b = Err ArithmeticError.
Proof.
  intros H. unfold checked_add.
  destruct (N.leb_spec (a + b) u64_max) as [Hle | _]; [lia | reflexivity].
Qed.

Lemma set_balance_same (v : LegacyBox) : set_balance (balance v) v = v.
Proof. destruct v; reflexivity. Qed.

(** Unfolds the transaction monad in the goal. *)
Ltac run_tx :=
  unfold execute, create_vault, im_alive, claim_legacy, cancel_legacy,
    coin_into_balance, coin_from_balance, bind, ret, lift, assert_,
    ctx_sender, object_new, object_delete, emit, public_transfer,
    share_object, object_id;
  cbn [fst snd ctx events transfers shared deleted sender tx_hash
       ids_created].

(** C6: a heartbeat by the owner stores the clock's time in
    [last_heartbeat], leaves every other field as it was and emits
    [HeartbeatUpdated] with the vault's id and that time; a heartbeat by
    anybody else aborts with [ENotOwner] and the vault keeps its
    [last_heartbeat]. *)
Theorem im_alive_owner_only (vault : LegacyBox) (clock : Clock)
    (st : VState) :
  (sender (ctx st) = owner vault ->
   im_alive vault clock st =
     Ok ({| id := id vault; owner := owner vault;
            beneficiary := beneficiary vault;
            unlock_time_ms := unlock_time_ms vault;
            last_heartbeat := timestamp_ms clock;
            encrypted_blob_id := encrypted_blob_id vault;
            locked_shares := locked_shares vault;
            balance := balance vault |},
         {| ctx := ctx st;
            events := events st
                      ++ [HeartbeatUpdated (id vault) (timestamp_ms clock)];
            transfers := transfers st;
            shared := shared st;
            deleted := deleted st |}))
  /\
  (sender (ctx st) <> owner vault ->
   im_alive vault clock st = Err (Abort InVault ENotOwner) /\
   execute (fun v => im_alive v clock) vault st
     = (vault, st, Some (Abort InVault ENotOwner))).
Proof.
  split; intros Hs; run_tx.
  - rewrite Hs, N.eqb_refl. reflexivity.
  - apply N.eqb_neq in Hs. rewrite Hs. split; reflexivity.
Qed.

(** The heartbeats of the test suite: by the owner and by a stranger, at
    time 50000. *)
Lemma im_alive_owner_only_witness :
  im_alive test_vault (at_ms 50000) (tx_by OWNER 2)
    = Ok (set_last_heartbeat 50000 test_vault,
          {| ctx := ctx (tx_by OWNER 2);
             events := [HeartbeatUpdated (1, 0) 50000];
             transfers := []; shared := []; deleted := [] |})
  /\ execute (fun v => im_alive v (at_ms 50000)) test_vault
             (tx_by STRANGER 2)
     = (test_vault, tx_by STRANGER 2, Some (Abort InVault ENotOwner)).
Proof.
  split.
  - apply (proj1 (im_alive_owner_only test_vault (at_ms 50000)
                    (tx_by OWNER 2))).
    reflexivity.
  - apply (proj2 (im_alive_owner_only test_vault (at_ms 50000)
                    (tx_by STRANGER 2))).
    discriminate.
Defined.

(** C5: a claim by the beneficiary after the unlock instant (a [u64], as
    every time of the clock) succeeds; the whole balance goes to the
    beneficiary in one coin (no coin at all when the balance is zero), the
    vault is left with balance 0 and every other field as it was, and
    [LegacyClaimed] carries the blob id, the locked shares and the
    amount. *)
Theorem claim_legacy_after_unlock (vault : LegacyBox) (clock : Clock)
    (st : VState) :
  sender (ctx st) = beneficiary vault ->
  last_heartbeat vault + unlock_time_ms vault < timestamp_ms clock ->
  timestamp_ms clock <= u64_max ->
  exists st',
    claim_legacy vault clock st
    = Ok ({| id := id vault; owner := owner vault;
             beneficiary := beneficiary vault;
             unlock_time_ms := unlock_time_ms vault;
             last_heartbeat := last_heartbeat vault;
             encrypted_blob_id := encrypted_blob_id vault;
             locked_shares := locked_shares vault;
             balance := 0 |}, st')
    /\ events st'
       = events st ++ [LegacyClaimed (beneficiary vault)
                         (encrypted_blob_id vault) (locked_shares vault)
                         (balance vault)]
    /\ transfers st'
       = transfers st ++
         (if 0 <? balance vault
          then [({| coin_id := (tx_hash (ctx st), ids_created (ctx st));
                    coin_value := balance vault |}, beneficiary vault)]
          else [])
    /\ shared st' = shared st /\ deleted st' = deleted st.
Proof.
  intros Hs Hlt Hclock. run_tx.
  rewrite Hs, N.eqb_refl.
  rewrite checked_add_fits by lia.
  destruct (N.ltb_spec (last_heartbeat vault + unlock_time_ms vault)
                       (timestamp_ms clock)) as [_ | Hge]; [| lia].
  destruct (N.ltb_spec 0 (balance vault)) as [Hpos | Hzero].
  - unfold balance_split. rewrite N.leb_refl. cbn [fst snd].
    rewrite N.sub_diag. eexists. split; [reflexivity |].
    cbn. repeat split; reflexivity.
  - assert (Hb : balance vault = 0) by lia.
    eexists. split.
    + cbn [events encrypted_blob_id locked_shares].
      destruct vault as [i o b u l e sh bal]. cbn in Hb. subst bal.
      reflexivity.
    + cbn. rewrite app_nil_r. repeat split; reflexivity.
Qed.

(** The successful claim of the test suite, one millisecond past the
    unlock instant. *)
Lemma claim_legacy_after_unlock_witness :
  exists st',
    claim_legacy test_vault (at_ms 86401001) (tx_by BENEFICIARY 2)
      = Ok ({| id := (1, 0); owner := OWNER; beneficiary := BENEFICIARY;
               unlock_time_ms := UNLOCK_TIME_MS; last_heartbeat := 1000;
               encrypted_blob_id := "blob_id";
               locked_shares := ["share_3"; "share_4"; "share_5"];
               balance := 0 |}, st')
    /\ events st'
       = [LegacyClaimed BENEFICIARY "blob_id"
            ["share_3"; "share_4"; "share_5"] DEPOSIT_AMOUNT]
    /\ transfers st'
       = [({| coin_id := (2, 0); coin_value := DEPOSIT_AMOUNT |},
           BENEFICIARY)]
    /\ shared st' = [] /\ deleted st' = [].
Proof.
  apply (claim_legacy_after_unlock test_vault (at_ms 86401001)
           (tx_by BENEFICIARY 2)).
  - reflexivity.
  - reflexivity.
  - vm_compute. discriminate.
Defined.

(** [create_vault] does build [unbounded_vault]. *)
Lemma unbounded_vault_created :
  exists st',
    create_vault BENEFICIARY u64_max "blob_id" "share_3" "share_4"
      "share_5" {| coin_id := (0, 0); coin_value := DEPOSIT_AMOUNT |}
      (at_ms 1000) (tx_by OWNER 1) = Ok (tt, st')
    /\ shared st' = [unbounded_vault].
Proof. eexists. split; [vm_compute; reflexivity | reflexivity]. Qed.

(** C4 as stated fails: the beneficiary of [unbounded_vault] claims at
    time 2000, which is not past [last_heartbeat + unlock_time_ms], and the
    abort is not [EUnlockTimeNotReached]: the addition overflows first. *)
Lemma claim_legacy_early_counterexample :
  sender (ctx (tx_by BENEFICIARY 2)) = beneficiary unbounded_vault
  /\ timestamp_ms (at_ms 2000)
     <= last_heartbeat unbounded_vault + unlock_time_ms unbounded_vault
  /\ claim_legacy unbounded_vault (at_ms 2000) (tx_by BENEFICIARY 2)
     = Err ArithmeticError
  /\ claim_legacy unbounded_vault (at_ms 2000) (tx_by BENEFICIARY 2)
     <> Err (Abort InVault EUnlockTimeNotReached).
Proof.
  split; [reflexivity |]. split; [vm_compute; discriminate |].
  split; [reflexivity | vm_compute; discriminate].
Qed.

(** C4, amended: a claim by anybody but the beneficiary aborts with
    [ENotBeneficiary] whatever the time; a claim by the beneficiary at a
    time not past [last_heartbeat + unlock_time_ms] aborts with
    [EUnlockTimeNotReached] when that sum fits in a [u64] and with the
    arithmetic error of the addition when it does not; in each case the
    vault, balance included, is left as it was. *)
Theorem claim_legacy_rejected (vault : LegacyBox) (clock : Clock)
    (st : VState) :
  (sender (ctx st) <> beneficiary vault ->
   claim_legacy vault clock st = Err (Abort InVault ENotBeneficiary)
   /\ execute (fun v => claim_legacy v clock) vault st
      = (vault, st, Some (Abort InVault ENotBeneficiary)))
  /\
  (sender (ctx st) = beneficiary vault ->
   timestamp_ms clock <= last_heartbeat vault + unlock_time_ms vault ->
   let failure :=
     if last_heartbeat vault + unlock_time_ms vault <=? u64_max
     then Abort InVault EUnlockTimeNotReached
     else ArithmeticError in
   claim_legacy vault clock st = Err failure
   /\ execute (fun v => claim_legacy v clock) vault st
      = (vault, st, Some failure)).
Proof.
  split.
  - intros Hs. apply N.eqb_neq in Hs. run_tx. rewrite Hs.
    split; reflexivity.
  - intros Hs Hearly. run_tx. rewrite Hs, N.eqb_refl.
    unfold checked_add.
    destruct (last_heartbeat vault + unlock_time_ms vault <=? u64_max).
    + destruct (N.ltb_spec (last_heartbeat vault + unlock_time_ms vault)
                           (timestamp_ms clock)) as [Hlt | _]; [lia |].
      split; reflexivity.
    + split; reflexivity.
Qed.

(** The rejected claims of the test suite: by a stranger after the unlock
    instant and by the beneficiary at time 2000. *)
Lemma claim_legacy_rejected_witness :
  execute (fun v => claim_legacy v (at_ms 86401001)) test_vault
          (tx_by STRANGER 2)
    = (test_vault, tx_by STRANGER 2, Some (Abort InVault ENotBeneficiary))
  /\ execute (fun v => claim_legacy v (at_ms 2000)) test_vault
             (tx_by BENEFICIARY 2)
     = (test_vault, tx_by BENEFICIARY 2,
        Some (Abort InVault EUnlockTimeNotReached)).
Proof.
  split.
  - apply (proj1 (claim_legacy_rejected test_vault (at_ms 86401001)
                    (tx_by STRANGER 2))).
    discriminate.
  - apply (proj2 (claim_legacy_rejected test_vault (at_ms 2000)
                    (tx_by BENEFICIARY 2))).
    + reflexivity.
    + vm_compute. discriminate.
Defined.

(** C3 as stated fails: on the vault created at time 1000 with the largest
    unlock duration, time 0 is not past [last_heartbeat + unlock_time_ms],
    yet [can_claim] does not answer [false]: it aborts. *)
Lemma can_claim_fresh_counterexample :
  (exists st',
     create_vault BENEFICIARY u64_max "blob_id" "share_3" "share_4"
       "share_5" {| coin_id := (0, 0); coin_value := DEPOSIT_AMOUNT |}
       (at_ms 1000) (tx_by OWNER 1) = Ok (tt, st')
     /\ shared st' = [unbounded_vault])
  /\ timestamp_ms (at_ms 0)
     <= last_heartbeat unbounded_vault + unlock_time_ms unbounded_vault
  /\ can_claim unbounded_vault (at_ms 0) = Err ArithmeticError
  /\ can_claim unbounded_vault (at_ms 0) <> Ok false.
Proof.
  split; [exact unbounded_vault_created |].
  split; [vm_compute; discriminate |].
  split; [reflexivity | vm_compute; discriminate].
Qed.

(** C3, amended: [create_vault] at time [t] shares a vault with
    [last_heartbeat = t]; when [t + unlock_time_ms] fits in a [u64],
    [can_claim] on it is false at every time up to and including
    [t + unlock_time_ms], true at [t + unlock_time_ms + 1] when that
    instant is itself a time of the clock (the sum is below the largest
    [u64]), and at every time of the clock it is exactly
    [now > last_heartbeat + unlock_time_ms]; when the sum does not fit,
    [can_claim] aborts at every time. *)
Theorem can_claim_fresh_vault (benef : address) (duration : N)
    (blob_id share_3 share_4 share_5 : string) (coin : Coin)
    (clock : Clock) (st : VState) :
  exists vault st',
    create_vault benef duration blob_id share_3 share_4 share_5 coin
                 clock st = Ok (tt, st')
    /\ shared st' = shared st ++ [vault]
    /\ last_heartbeat vault = timestamp_ms clock
    /\ unlock_time_ms vault = duration
    /\ (timestamp_ms clock + duration <= u64_max ->
        (forall now, now <= last_heartbeat vault + unlock_time_ms vault ->
                     can_claim vault (at_ms now) = Ok false)
        /\ (timestamp_ms clock + duration < u64_max ->
            can_claim vault
              (at_ms (last_heartbeat vault + unlock_time_ms vault + 1))
            = Ok true)
        /\ (forall now,
              now <= u64_max ->
              can_claim vault (at_ms now)
              = Ok (last_heartbeat vault + unlock_time_ms vault <? now)))
    /\ (u64_max < timestamp_ms clock + duration ->
        forall now, can_claim vault (at_ms now) = Err ArithmeticError).
Proof.
  eexists. eexists. run_tx.
  split; [reflexivity |]. split; [reflexivity |].
  split; [reflexivity |]. split; [reflexivity |].
  cbn [last_heartbeat unlock_time_ms]. split.
  - intros Hfit. unfold can_claim. cbn [last_heartbeat unlock_time_ms].
    rewrite checked_add_fits by exact Hfit.
    cbn [res_bind timestamp_ms at_ms]. repeat split.
    + intros now Hnow. f_equal. apply N.ltb_ge. exact Hnow.
    + intros _. f_equal. apply N.ltb_lt. lia.
  - intros Hover now. unfold can_claim.
    cbn [last_heartbeat unlock_time_ms].
    rewrite checked_add_overflows by exact Hover. reflexivity.
Qed.

(** The vault of the test suite at its boundary instant and one
    millisecond later. *)
Lemma can_claim_fresh_vault_witness :
  exists vault st',
    create_vault BENEFICIARY UNLOCK_TIME_MS "blob_id" "share_3" "share_4"
      "share_5" {| coin_id := (0, 0); coin_value := DEPOSIT_AMOUNT |}
      (at_ms 1000) (tx_by OWNER 1) = Ok (tt, st')
    /\ shared st' = [vault]
    /\ can_claim vault (at_ms 86401000) = Ok false
    /\ can_claim vault (at_ms 86401001) = Ok true
    /\ can_claim vault (at_ms 2000) = Ok false.
Proof.
  destruct (can_claim_fresh_vault BENEFICIARY UNLOCK_TIME_MS "blob_id"
              "share_3" "share_4" "share_5"
              {| coin_id := (0, 0); coin_value := DEPOSIT_AMOUNT |}
              (at_ms 1000) (tx_by OWNER 1))
    as (vault & st' & Hcreate & Hshared & Hlh & Hut & Hfit & _).
  exists vault, st'.
  split; [exact Hcreate |]. split; [exact Hshared |].
  assert (Hsmall : timestamp_ms (at_ms 1000) + UNLOCK_TIME_MS <= u64_max)
    by (vm_compute; discriminate).
  destruct (Hfit Hsmall) as (Hbefore & Hafter & Hexact).
  rewrite Hlh, Hut in Hbefore, Hafter, Hexact.
  split; [apply Hbefore; vm_compute; discriminate |].
  split; [apply Hafter; reflexivity |].
  apply (Hexact 2000). vm_compute. discriminate.
Defined.

(** C10: at the instant [now = last_heartbeat + unlock_time_ms],
    [time_until_claim] answers 0 and [can_claim] answers false; that is the
    only instant at which the two do so, and at every other instant
    [time_until_claim] answers 0 exactly when [can_claim] answers true. *)
Theorem time_until_claim_zero_at_boundary (vault : LegacyBox)
    (clock : Clock) :
  timestamp_ms clock <= u64_max ->
  (timestamp_ms clock = last_heartbeat vault + unlock_time_ms vault ->
   time_until_claim vault clock = Ok 0 /\ can_claim vault clock = Ok false)
  /\
  (time_until_claim vault clock = Ok 0 /\ can_claim vault clock = Ok false
   -> timestamp_ms clock = last_heartbeat vault + unlock_time_ms vault)
  /\
  (timestamp_ms clock <> last_heartbeat vault + unlock_time_ms vault ->
   (time_until_claim vault clock = Ok 0
    <-> can_claim vault clock = Ok true)).
Proof.
  intros Hclock. unfold time_until_claim, can_claim, checked_add.
  set (unlock_at := last_heartbeat vault + unlock_time_ms vault).
  assert (Hinj : forall a b : N, @Ok N a = Ok b -> a = b)
    by (intros a b H; injection H; trivial).
  destruct (N.leb_spec unlock_at u64_max) as [Hfit | Hover];
    cbn [res_bind].
  - unfold checked_sub.
    destruct (N.leb_spec unlock_at (timestamp_ms clock)) as [Hle | Hgt];
      destruct (N.ltb_spec unlock_at (timestamp_ms clock)) as [Hlt | Hge];
      try lia.
    + split; [intros; lia |]. split; [intros [_ H]; discriminate |].
      intros _. split; reflexivity.
    + split; [intros _; split; reflexivity |].
      split; [intros _; lia |]. intros Hne. lia.
    + destruct (N.leb_spec (timestamp_ms clock) unlock_at) as [_ | Habs];
        [| lia].
      split; [intros; lia |].
      split; [intros [H _]; apply Hinj in H; lia |].
      intros _. split; [intros H; apply Hinj in H; lia | discriminate].
  - split; [intros; lia |]. split; [intros [H _]; discriminate |].
    intros _. split; discriminate.
Qed.

(** The vault of the test suite at its boundary instant. *)
Lemma time_until_claim_zero_at_boundary_witness :
  time_until_claim test_vault (at_ms 86401000) = Ok 0
  /\ can_claim test_vault (at_ms 86401000) = Ok false.
Proof.
  apply (proj1 (time_until_claim_zero_at_boundary test_vault
                  (at_ms 86401000) ltac:(vm_compute; discriminate))).
  reflexivity.
Defined.

(** C2 as stated fails: [create_vault] with [unlock_time_ms = 0] does not
    fail; it shares a vault whose unlock duration is 0. *)
Lemma create_vault_zero_duration_counterexample :
  create_vault BENEFICIARY 0 "blob_id" "share_3" "share_4" "share_5"
    {| coin_id := (0, 0); coin_value := DEPOSIT_AMOUNT |}
    (at_ms 1000) (tx_by OWNER 1)
  = Ok (tt,
        {| ctx := {| sender := OWNER; tx_hash := 1; ids_created := 1 |};
           events := [VaultCreated (1, 0) OWNER BENEFICIARY 0];
           transfers := [];
           shared := [set_unlock_time_ms 0 test_vault];
           deleted := [(0, 0)] |}).
Proof. reflexivity. Qed.

(** C2, amended: [create_vault] receives its three shares as three
    arguments and checks nothing: for every unlock duration, 0 included,
    it succeeds and shares a vault owned by the sender that holds exactly
    those three shares, the given duration, the clock's time as
    [last_heartbeat] and the coin's value as balance. *)
Theorem create_vault_never_fails (benef : address) (duration : N)
    (blob_id share_3 share_4 share_5 : string) (coin : Coin)
    (clock : Clock) (st : VState) :
  let uid := (tx_hash (ctx st), ids_created (ctx st)) in
  let vault :=
    {| id := uid; owner := sender (ctx st); beneficiary := benef;
       unlock_time_ms := duration; last_heartbeat := timestamp_ms clock;
       encrypted_blob_id := blob_id;
       locked_shares := [share_3; share_4; share_5];
       balance := coin_value coin |} in
  exists st',
    create_vault benef duration blob_id share_3 share_4 share_5 coin
                 clock st = Ok (tt, st')
    /\ shared st' = shared st ++ [vault]
    /\ List.length (locked_shares vault) = 3%nat
    /\ events st'
       = events st ++ [VaultCreated uid (sender (ctx st)) benef duration]
    /\ transfers st' = transfers st
    /\ deleted st' = deleted st ++ [coin_id coin].
Proof.
  cbv zeta. eexists. run_tx. split; [reflexivity |].
  cbn. repeat split; reflexivity.
Qed.

(** What a successful claim tells about its arguments and its result. *)
Lemma claim_legacy_ok_inv (vault claimed : LegacyBox) (clock : Clock)
    (st st1 : VState) :
  claim_legacy vault clock st = Ok (claimed, st1) ->
  sender (ctx st) = beneficiary vault
  /\ last_heartbeat vault + unlock_time_ms vault <= u64_max
  /\ last_heartbeat vault + unlock_time_ms vault < timestamp_ms clock
  /\ claimed = set_balance 0 vault.
Proof.
  run_tx.
  destruct (N.eqb_spec (sender (ctx st)) (beneficiary vault))
    as [Hs | _]; [| discriminate].
  unfold checked_add.
  destruct (N.leb_spec (last_heartbeat vault + unlock_time_ms vault)
                       u64_max) as [Hfit | _]; [| discriminate].
  destruct (N.ltb_spec (last_heartbeat vault + unlock_time_ms vault)
                       (timestamp_ms clock)) as [Hlt | _];
    [| discriminate].
  destruct (N.ltb_spec 0 (balance vault)) as [Hpos | Hzero].
  - unfold balance_split. rewrite N.leb_refl. cbn [fst snd].
    rewrite N.sub_diag. intros H. injection H as Hv _. auto.
  - intros H. injection H as Hv _. subst claimed.
    assert (Hb : balance vault = 0) by lia.
    repeat split; trivial.
    rewrite <- Hb. symmetry. apply set_balance_same.
Qed.

(** A claim on an empty vault moves no coin and still emits the event. *)
Lemma claim_legacy_empty (vault : LegacyBox) (clock : Clock)
    (st : VState) :
  sender (ctx st) = beneficiary vault ->
  last_heartbeat vault + unlock_time_ms vault <= u64_max ->
  last_heartbeat vault + unlock_time_ms vault < timestamp_ms clock ->
  balance vault = 0 ->
  claim_legacy vault clock st
  = Ok (vault,
        {| ctx := ctx st;
           events := events st
                     ++ [LegacyClaimed (beneficiary vault)
                           (encrypted_blob_id vault) (locked_shares vault)
                           0];
           transfers := transfers st;
           shared := shared st;
           deleted := deleted st |}).
Proof.
  intros Hs Hfit Hlt Hzero. run_tx.
  rewrite Hs, N.eqb_refl, checked_add_fits by exact Hfit.
  destruct (N.ltb_spec (last_heartbeat vault + unlock_time_ms vault)
                       (timestamp_ms clock)) as [_ | Hge]; [| lia].
  rewrite Hzero. reflexivity.
Qed.

(** After a successful claim the vault is an ordinary live vault with
    balance 0: the same beneficiary can claim it again at any later
    time. *)
Lemma claim_legacy_repeatable (vault claimed : LegacyBox)
    (clock clock' : Clock) (st st1 st2 : VState) :
  claim_legacy vault clock st = Ok (claimed, st1) ->
  timestamp_ms clock <= timestamp_ms clock' ->
  sender (ctx st2) = sender (ctx st) ->
  claim_legacy claimed clock' st2
  = Ok (claimed,
        {| ctx := ctx st2;
           events := events st2
                     ++ [LegacyClaimed (beneficiary vault)
                           (encrypted_blob_id vault) (locked_shares vault)
                           0];
           transfers := transfers st2;
           shared := shared st2;
           deleted := deleted st2 |}).
Proof.
  intros Hclaim Hlater Hsame.
  destruct (claim_legacy_ok_inv _ _ _ _ _ Hclaim)
    as (Hs & Hfit & Hlt & ->).
  apply (claim_legacy_empty (set_balance 0 vault) clock' st2);
    cbn [set_balance beneficiary last_heartbeat unlock_time_ms balance];
    try reflexivity; lia.
Qed.

(** C1 at the scenario of the test suite: the beneficiary claims the
    vault one millisecond past the unlock instant; afterwards a second
    claim succeeds (and emits [LegacyClaimed] again, with amount 0), the
    owner's heartbeat is accepted and moves [last_heartbeat], and the
    owner's cancellation succeeds and destroys the vault. *)
Theorem claimed_vault_is_not_terminal :
  let claimed := set_balance 0 test_vault in
  (exists st1,
     claim_legacy test_vault (at_ms 86401001) (tx_by BENEFICIARY 2)
     = Ok (claimed, st1))
  /\ claim_legacy claimed (at_ms 86401002) (tx_by BENEFICIARY 3)
     = Ok (claimed,
           {| ctx := ctx (tx_by BENEFICIARY 3);
              events := [LegacyClaimed BENEFICIARY "blob_id"
                           ["share_3"; "share_4"; "share_5"] 0];
              transfers := []; shared := []; deleted := [] |})
  /\ im_alive claimed (at_ms 86401002) (tx_by OWNER 4)
     = Ok (set_last_heartbeat 86401002 claimed,
           {| ctx := ctx (tx_by OWNER 4);
              events := [HeartbeatUpdated (1, 0) 86401002];
              transfers := []; shared := []; deleted := [] |})
  /\ cancel_legacy claimed (tx_by OWNER 5)
     = Ok (tt,
           {| ctx := ctx (tx_by OWNER 5);
              events := [VaultCancelled (1, 0) OWNER 0];
              transfers := []; shared := []; deleted := [(1, 0)] |}).
Proof.
  cbv zeta. split; [eexists; vm_compute; reflexivity |].
  repeat split; reflexivity.
Qed.

End VaultProps.

(** ** Properties of the threshold secret engine *)
Module EngineProps.
Import GF256 Secrets CryptoEngine Interpolation.

(** *** Exclusive or *)

(** Proves an equation between two exclusive-or sums of the same terms by
    comparing them bit by bit. *)
Ltac xor_sums :=
  let n := fresh "n" in
  apply N.bits_inj; intro n;
  rewrite ?N.lxor_spec, ?N.bits_0;
  repeat match goal with
         | |- context [N.testbit ?t n] =>
             generalize (N.testbit t n); intro
         end;
  repeat match goal with
         | b : bool |- _ => destruct b
         end;
  reflexivity.

Lemma lxor_shuffle (a b c d : N) :
  N.lxor (N.lxor a b) (N.lxor c d) = N.lxor (N.lxor a c) (N.lxor b d).
Proof. xor_sums. Qed.

(** *** Multiplication is additive in its first argument *)

Lemma xtime_lxor (a b : N) :
  xtime (N.lxor a b) = N.lxor (xtime a) (xtime b).
Proof.
  unfold xtime.
  rewrite N.shiftl_lxor, N.lxor_spec.
  replace (N.land (N.lxor (N.shiftl a 1) (N.shiftl b 1)) 255)
    with (N.lxor (N.land (N.shiftl a 1) 255) (N.land (N.shiftl b 1) 255)).
  - destruct (N.testbit a 7), (N.testbit b 7); cbn [xorb]; xor_sums.
  - apply N.bits_inj; intro n.
    rewrite ?N.lxor_spec, ?N.land_spec, ?N.lxor_spec.
    destruct (N.testbit (N.shiftl a 1) n), (N.testbit (N.shiftl b 1) n),
      (N.testbit 255 n); reflexivity.
Qed.

Lemma gf_mul_loop_lxor_l (n : nat) :
  forall a b c,
    gf_mul_loop n (N.lxor a b) c
    = N.lxor (gf_mul_loop n a c) (gf_mul_loop n b c).
Proof.
  induction n as [| n IH]; intros a b c; cbn [gf_mul_loop].
  - reflexivity.
  - rewrite xtime_lxor, IH, <- lxor_shuffle.
    destruct (N.odd c); [reflexivity |].
    rewrite N.lxor_0_l. reflexivity.
Qed.

Lemma gf_mul_lxor_l (a b c : N) :
  gf_mul (N.lxor a b) c = N.lxor (gf_mul a c) (gf_mul b c).
Proof. apply gf_mul_loop_lxor_l. Qed.

Lemma gf_mul_0_l (c : N) : gf_mul 0 c = 0.
Proof.
  rewrite <- (N.lxor_nilpotent 0) at 1.
  rewrite gf_mul_lxor_l. apply N.lxor_nilpotent.
Qed.

(** *** Checking a property on every byte *)

Lemma forallb_bytes (P : N -> bool) :
  forallb P bytes = true -> forall v, v < 256 -> P v = true.
Proof.
  intros Hall v Hv. rewrite forallb_forall in Hall. apply Hall.
  unfold bytes. apply in_map_iff. exists (N.to_nat v). split.
  - apply N2Nat.id.
  - apply in_seq. lia.
Qed.

(** *** Interpolation through three shares *)

Lemma recombine_blend (x1 x2 x3 : N) (p : list N) :
  recombine x1 x2 x3 p
  = blend (weight [x1; x2; x3] x1) (weight [x1; x2; x3] x2)
          (weight [x1; x2; x3] x3)
          (horner p x1) (horner p x2) (horner p x3).
Proof. reflexivity. Qed.

Lemma horner_quadratic (s a b x : N) :
  horner [s; a; b] x
  = N.lxor s (N.lxor (gf_mul a x) (gf_mul (gf_mul b x) x)).
Proof.
  unfold horner, gf_add. cbn [fold_right].
  rewrite gf_mul_0_l, N.lxor_0_r, !gf_mul_lxor_l. reflexivity.
Qed.

Lemma blend_additive (w1 w2 w3 x1 x2 x3 s a b : N) :
  blend w1 w2 w3 (horner [s; a; b] x1) (horner [s; a; b] x2)
        (horner [s; a; b] x3)
  = N.lxor
      (blend w1 w2 w3 (horner [s; 0; 0] x1) (horner [s; 0; 0] x2)
             (horner [s; 0; 0] x3))
      (N.lxor
         (blend w1 w2 w3 (horner [0; a; 0] x1) (horner [0; a; 0] x2)
                (horner [0; a; 0] x3))
         (blend w1 w2 w3 (horner [0; 0; b] x1) (horner [0; 0; b] x2)
                (horner [0; 0; b] x3))).
Proof.
  unfold blend. rewrite !horner_quadratic.
  rewrite !gf_mul_lxor_l, !gf_mul_0_l, ?N.lxor_0_r, ?N.lxor_0_l.
  xor_sums.
Qed.

Lemma recombine_quadratic (x1 x2 x3 s a b : N) :
  interpolates x1 x2 x3 = true ->
  s < 256 -> a < 256 -> b < 256 ->
  recombine x1 x2 x3 [s; a; b] = s.
Proof.
  intros Hchk Hs Ha Hb. rewrite recombine_blend, blend_additive.
  unfold interpolates in Hchk. cbv zeta in Hchk.
  pose proof (forallb_bytes _ Hchk) as Hall. cbv beta in Hall.
  destruct (andb_prop _ _ (Hall s Hs)) as [H1 _].
  destruct (andb_prop _ _ H1) as [Hsecret _].
  destruct (andb_prop _ _ (Hall a Ha)) as [H2 _].
  destruct (andb_prop _ _ H2) as [_ Hlinear].
  destruct (andb_prop _ _ (Hall b Hb)) as [_ Hsquare].
  apply N.eqb_eq in Hsecret, Hlinear, Hsquare.
  rewrite Hsecret, Hlinear, Hsquare. rewrite !N.lxor_0_r. reflexivity.
Qed.

(** *** From shares back to the key *)

Lemma map_nth_seq {A B} (f : A -> B) (d : A) (l : list A) :
  map (fun pos => f (nth pos l d)) (seq 0 (List.length l)) = map f l.
Proof.
  induction l as [| a l IH]; [reflexivity |].
  cbn [List.length seq map nth]. f_equal.
  rewrite <- seq_shift, map_map. exact IH.
Qed.

Lemma combine_three (polys : list (list N)) (i j k : nat) :
  secrets_combine [share_at polys i; share_at polys j; share_at polys k]
  = Js.Return
      (map (recombine (N.of_nat i) (N.of_nat j) (N.of_nat k)) polys).
Proof.
  unfold secrets_combine. f_equal.
  cbn [share_at share_data share_id map].
  rewrite length_map.
  rewrite <- (map_nth_seq
                (recombine (N.of_nat i) (N.of_nat j) (N.of_nat k))
                [] polys).
  apply map_ext. intros pos. unfold recombine.
  rewrite <- !(map_nth (fun p => horner p _) polys []). reflexivity.
Qed.

Lemma polynomials_quadratic (rng : nat -> N) (secret : list N) :
  Forall (fun s => s < 256) secret ->
  forall pos, Forall quadratic (polynomials rng 2 pos secret).
Proof.
  induction 1 as [| s rest Hs _ IH]; intros pos;
    cbn [polynomials seq map]; constructor.
  - exists s, (rng (pos * 2 + 0)%nat mod 256),
      (rng (pos * 2 + 1)%nat mod 256).
    repeat split; trivial; apply N.mod_lt; discriminate.
  - apply IH.
Qed.

Lemma polynomials_constant_terms (rng : nat -> N) (degree : nat)
    (secret : list N) :
  forall pos, map (hd 0) (polynomials rng degree pos secret) = secret.
Proof.
  induction secret as [| s rest IH]; intros pos; cbn [polynomials map hd].
  - reflexivity.
  - f_equal. apply IH.
Qed.

Lemma recombine_polynomials (x1 x2 x3 : N) (polys : list (list N)) :
  interpolates x1 x2 x3 = true ->
  Forall quadratic polys ->
  map (recombine x1 x2 x3) polys = map (hd 0) polys.
Proof.
  intros Hchk Hq. induction Hq as [| p rest Hp _ IH]; [reflexivity |].
  cbn [map]. rewrite IH. f_equal.
  destruct Hp as (s & a & b & -> & Hs & Ha & Hb).
  apply recombine_quadratic; assumption.
Qed.

Lemma str2hex_bytes (s : string) :
  Forall (fun v => v < 256) (secrets_str2hex s).
Proof.
  unfold secrets_str2hex. apply Forall_map, Forall_forall.
  intros c _. apply N_ascii_bounded.
Qed.

Lemma hex2str_str2hex (s : string) :
  secrets_hex2str (secrets_str2hex s) = s.
Proof.
  unfold secrets_hex2str, secrets_str2hex. rewrite map_map.
  rewrite (map_ext _ (fun c => c)) by apply ascii_N_embedding.
  rewrite map_id. apply string_of_list_ascii_of_string.
Qed.

Lemma splitKey_shares (rng : nat -> N) (aesKey : string) :
  splitKey spec_model rng aesKey
  = Js.Return (map (share_at (key_polynomials rng aesKey))
                   [1; 2; 3; 4; 5]%nat).
Proof. reflexivity. Qed.

Lemma recoverKey_three (rng : nat -> N) (aesKey : string) (i j k : nat) :
  interpolates (N.of_nat i) (N.of_nat j) (N.of_nat k) = true ->
  recoverKey spec_model
    [share_at (key_polynomials rng aesKey) i;
     share_at (key_polynomials rng aesKey) j;
     share_at (key_polynomials rng aesKey) k]
  = Js.Return aesKey.
Proof.
  intros Hchk. unfold recoverKey.
  cbn [List.length Nat.ltb Nat.leb spec_model combine hex2str].
  rewrite combine_three. cbn [Js.bind]. f_equal.
  rewrite recombine_polynomials.
  - unfold key_polynomials. rewrite polynomials_constant_terms.
    apply hex2str_str2hex.
  - exact Hchk.
  - apply polynomials_quadratic, str2hex_bytes.
Qed.

(** C8: [splitKey] returns five shares; each of the ten subsets of three
    of them gives [recoverKey] the same result, the key that was split. *)
Theorem recoverKey_any_three_shares (rng : nat -> N) (aesKey : string) :
  exists shares,
    splitKey spec_model rng aesKey = Js.Return shares
    /\ List.length shares = 5%nat
    /\ List.length (subsets 3 shares) = 10%nat
    /\ Forall (fun three =>
                 List.length three = 3%nat
                 /\ recoverKey spec_model three = Js.Return aesKey)
              (subsets 3 shares).
Proof.
  eexists. split; [apply splitKey_shares |].
  split; [reflexivity |]. split; [reflexivity |].
  cbn [map subsets app].
  repeat (constructor;
          [split; [reflexivity
                  | apply recoverKey_three; vm_compute; reflexivity] |]).
  constructor.
Qed.

(** The order in which the three shares are handed over does not matter
    either. *)
Lemma recoverKey_any_order (rng : nat -> N) (aesKey : string) :
  exists shares,
    splitKey spec_model rng aesKey = Js.Return shares
    /\ List.length (arrangements 3 shares) = 60%nat
    /\ Forall (fun three => recoverKey spec_model three = Js.Return aesKey)
              (arrangements 3 shares).
Proof.
  eexists. split; [apply splitKey_shares |].
  split; [reflexivity |].
  cbn [map arrangements picks flat_map app fst snd].
  repeat (constructor;
          [apply recoverKey_three; vm_compute; reflexivity |]).
  constructor.
Qed.

(** C9: with two shares or fewer, [recoverKey] throws its own error,
    whatever [secrets.combine] would have done with them. *)
Theorem recoverKey_needs_three_shares {Hex Share : Type}
    (secrets : Api Hex Share) (shares : list Share) :
  (List.length shares <= 2)%nat ->
  recoverKey secrets shares
  = Js.Throw "Minimum 3 shares required to recover key".
Proof.
  intros Hfew. unfold recoverKey.
  destruct (Nat.ltb_spec (List.length shares) 3) as [_ | Hge];
    [reflexivity | lia].
Qed.

(** Two shares of the sample key, as in the test of the engine. *)
Lemma recoverKey_needs_three_shares_witness :
  recoverKey spec_model
    [share_at (key_polynomials sample_rng sample_key) 1;
     share_at (key_polynomials sample_rng sample_key) 2]
  = Js.Throw "Minimum 3 shares required to recover key".
Proof.
  apply (recoverKey_needs_three_shares spec_model).
  cbn [List.length]. lia.
Defined.

(** *** The symmetric payload

    What the engine's own code adds to [nacl.secretbox]: the nonce is
    put in front of the ciphertext and taken off again at
    [nonceLength].  The contract of the library is assumed, not
    proved. *)
Section PayloadRoundTrip.
Import Nacl.
Context (nacl : Nacl.Api).

Hypothesis randomBytes_length :
  forall rng n, List.length (randomBytes rng n) = n.
Hypothesis decodeBase64_encodeBase64 :
  forall b, decodeBase64 (encodeBase64 b) = Js.Return b.
Hypothesis encodeUTF8_decodeUTF8 :
  forall s b, decodeUTF8 s = Js.Return b -> encodeUTF8 b = Js.Return s.
Hypothesis secretbox_returns :
  forall m n k,
    List.length n = nonceLength -> List.length k = keyLength ->
    exists c, secretbox m n k = Js.Return c.
Hypothesis secretbox_open_secretbox :
  forall m n k c,
    secretbox m n k = Js.Return c ->
    secretbox_open c n k = Js.Return (Some m).

Lemma decryptPayload_encryptPayload (rng : nat -> N)
    (text aesKey : string) (keyBytes textBytes : Bytes) :
  decodeBase64 aesKey = Js.Return keyBytes ->
  List.length keyBytes = keyLength ->
  decodeUTF8 text = Js.Return textBytes ->
  exists blob,
    encryptPayload nacl rng text aesKey = Js.Return blob
    /\ decryptPayload nacl blob aesKey = Js.Return text.
Proof.
  intros Hkey Hlen Htext.
  destruct (secretbox_returns textBytes (randomBytes rng nonceLength)
              keyBytes (randomBytes_length _ _) Hlen) as [c Hbox].
  exists (encodeBase64 (randomBytes rng nonceLength ++ c)%list).
  unfold encryptPayload, decryptPayload.
  rewrite Hkey, Htext. cbn [Js.bind]. rewrite Hbox. cbn [Js.bind].
  split; [reflexivity |].
  rewrite decodeBase64_encodeBase64. cbn [Js.bind].
  rewrite firstn_app, skipn_app, randomBytes_length, Nat.sub_diag.
  rewrite firstn_all2, skipn_all2
    by (rewrite randomBytes_length; apply Nat.le_refl).
  cbn [firstn skipn app]. rewrite app_nil_r.
  rewrite (secretbox_open_secretbox _ _ _ _ Hbox). cbn [Js.bind].
  apply encodeUTF8_decodeUTF8. exact Htext.
Qed.

End PayloadRoundTrip.

Example decryptPayload_encryptPayload_clear_box :
  exists blob,
    encryptPayload Nacl.clear_box sample_rng "secret note"
                   "0123456789abcdef0123456789abcdef"
      = Js.Return blob
    /\ decryptPayload Nacl.clear_box blob
                      "0123456789abcdef0123456789abcdef"
       = Js.Return "secret note"%string.
Proof.
  apply (decryptPayload_encryptPayload Nacl.clear_box)
    with (keyBytes :=
            list_byte_of_string "0123456789abcdef0123456789abcdef"%string)
         (textBytes := list_byte_of_string "secret note"%string).
  - intros rng n. cbn [Nacl.randomBytes Nacl.clear_box].
    rewrite length_map. apply length_seq.
  - intros b. cbn [Nacl.decodeBase64 Nacl.encodeBase64 Nacl.clear_box].
    rewrite list_byte_of_string_of_list_byte. reflexivity.
  - intros s b H.
    cbn [Nacl.decodeUTF8 Nacl.encodeUTF8 Nacl.clear_box] in *.
    injection H as <-.
    rewrite string_of_list_byte_of_string. reflexivity.
  - intros m n k _ _. exists m. reflexivity.
  - intros m n k c H.
    cbn [Nacl.secretbox Nacl.secretbox_open Nacl.clear_box] in *.
    injection H as <-. reflexivity.
  - reflexivity.
  - reflexivity.
  - reflexivity.
Qed.

End EngineProps.

(** ** Further properties of the vault *)
Module VaultMore.
Import Move Vault Ledger.
Local Open Scope string_scope.
Local Open Scope list_scope.
Local Open Scope N_scope.

(** Unfolds the transaction monad in the goal. *)
Ltac run_entry :=
  unfold execute, im_alive, claim_legacy, cancel_legacy, add_funds,
    update_beneficiary, update_unlock_time, balance_join,
    coin_into_balance, coin_from_balance, bind, ret, lift, assert_,
    ctx_sender, object_new, object_delete, emit, public_transfer,
    share_object, object_id;
  cbn [fst snd ctx events transfers shared deleted sender tx_hash
       ids_created].

Lemma add_fits (a b : N) :
  a + b <= u64_max -> checked_add a b = Ok (a + b).
Proof.
  intros H. unfold checked_add.
  destruct (N.leb_spec (a + b) u64_max) as [_ | Hgt]; [reflexivity | lia].
Qed.

Lemma add_overflows (a b : N) :
  u64_max < a + b -> checked_add a b = Err ArithmeticError.
Proof.
  intros H. unfold checked_add.
  destruct (N.leb_spec (a + b) u64_max) as [Hle | _]; [lia | reflexivity].
Qed.

Lemma set_balance_id (v : LegacyBox) : set_balance (balance v) v = v.
Proof. destruct v; reflexivity. Qed.

(** What [claim_legacy] does when it goes through. *)
Lemma claim_legacy_pays (vault : LegacyBox) (clock : Clock) (st : VState) :
  sender (ctx st) = beneficiary vault ->
  last_heartbeat vault + unlock_time_ms vault < timestamp_ms clock ->
  timestamp_ms clock <= u64_max ->
  exists st',
    claim_legacy vault clock st = Ok (set_balance 0 vault, st')
    /\ transfers st'
       = transfers st ++
         (if 0 <? balance vault
          then [({| coin_id := (tx_hash (ctx st), ids_created (ctx st));
                    coin_value := balance vault |}, beneficiary vault)]
          else []).
Proof.
  intros Hs Hlt Hclock. run_entry.
  rewrite Hs, N.eqb_refl.
  rewrite add_fits by lia.
  destruct (N.ltb_spec (last_heartbeat vault + unlock_time_ms vault)
                       (timestamp_ms clock)) as [_ | Hge]; [| lia].
  destruct (N.ltb_spec 0 (balance vault)) as [Hpos | Hzero].
  - unfold balance_split. rewrite N.leb_refl. cbn [fst snd].
    rewrite N.sub_diag. eexists. split; reflexivity.
  - assert (Hb : balance vault = 0) by lia.
    assert (Hv : set_balance 0 vault = vault)
      by (rewrite <- Hb; apply set_balance_id).
    rewrite Hv. eexists. split; [reflexivity |].
    cbn. rewrite app_nil_r. reflexivity.
Qed.

(** What makes [claim_legacy] fail. *)
Lemma claim_legacy_fails (vault : LegacyBox) (clock : Clock) (st : VState) :
  sender (ctx st) <> beneficiary vault
  \/ timestamp_ms clock <= last_heartbeat vault + unlock_time_ms vault ->
  exists f, claim_legacy vault clock st = Err f.
Proof.
  intros H. run_entry.
  destruct (N.eqb_spec (sender (ctx st)) (beneficiary vault)) as [Hs | Hs].
  - destruct H as [H | H]; [contradiction |].
    unfold checked_add.
    destruct (last_heartbeat vault + unlock_time_ms vault <=? u64_max).
    + destruct (N.ltb_spec (last_heartbeat vault + unlock_time_ms vault)
                           (timestamp_ms clock)) as [Hlt | _]; [lia |].
      eexists. reflexivity.
    + eexists. reflexivity.
  - eexists. reflexivity.
Qed.

(** What a heartbeat that went through tells. *)
Lemma im_alive_ok_inv (vault beating : LegacyBox) (clock : Clock)
    (st st' : VState) :
  im_alive vault clock st = Ok (beating, st') ->
  sender (ctx st) = owner vault
  /\ beating = set_last_heartbeat (timestamp_ms clock) vault.
Proof.
  run_entry.
  destruct (N.eqb_spec (sender (ctx st)) (owner vault)) as [Hs | _];
    [| discriminate].
  intros H. injection H as <- _. split; [exact Hs | reflexivity].
Qed.

(** X1: the owner can always cancel: the whole balance goes back to the
    owner in one coin (no coin when the vault is empty), [VaultCancelled]
    carries the vault's id, the owner and the amount, and the vault's
    identifier is deleted; anybody else, the beneficiary included, is
    turned away with [ENotOwner] whatever the time. *)
Theorem cancel_legacy_owner_only (vault : LegacyBox) (st : VState) :
  (sender (ctx st) = owner vault ->
   exists st',
     cancel_legacy vault st = Ok (tt, st')
     /\ transfers st'
        = transfers st ++
          (if 0 <? balance vault
           then [({| coin_id := (tx_hash (ctx st), ids_created (ctx st));
                     coin_value := balance vault |}, owner vault)]
           else [])
     /\ events st'
        = events st
          ++ [VaultCancelled (id vault) (owner vault) (balance vault)]
     /\ deleted st' = deleted st ++ [id vault]
     /\ shared st' = shared st)
  /\
  (sender (ctx st) <> owner vault ->
   cancel_legacy vault st = Err (Abort InVault ENotOwner)).
Proof.
  split; intros Hs; run_entry.
  - rewrite Hs, N.eqb_refl.
    destruct (N.ltb_spec 0 (balance vault)) as [Hpos | Hzero].
    + eexists. split; [reflexivity |]. cbn. repeat split; reflexivity.
    + assert (Hb : balance vault = 0) by lia.
      unfold balance_destroy_zero. rewrite Hb. cbn.
      eexists. split; [reflexivity |]. cbn.
      rewrite app_nil_r. repeat split; reflexivity.
  - apply N.eqb_neq in Hs. rewrite Hs. reflexivity.
Qed.

(** The owner of the test vault cancels; its beneficiary tries to, after
    the unlock instant. *)
Lemma cancel_legacy_owner_only_witness :
  (exists st',
     cancel_legacy test_vault (tx_by OWNER 2) = Ok (tt, st')
     /\ transfers st'
        = [({| coin_id := (2, 0); coin_value := DEPOSIT_AMOUNT |}, OWNER)]
     /\ events st' = [VaultCancelled (1, 0) OWNER DEPOSIT_AMOUNT]
     /\ deleted st' = [(1, 0)]
     /\ shared st' = [])
  /\ cancel_legacy test_vault (tx_by BENEFICIARY 2)
     = Err (Abort InVault ENotOwner).
Proof.
  split.
  - apply (proj1 (cancel_legacy_owner_only test_vault (tx_by OWNER 2))).
    reflexivity.
  - apply (proj2 (cancel_legacy_owner_only test_vault
                    (tx_by BENEFICIARY 2))).
    discriminate.
Defined.

(** X2: [add_funds] by the owner adds the coin's value to the balance and
    changes nothing else, provided the sum fits in a [u64]; when it does not
    fit the call aborts with an arithmetic error; a call by anybody else
    aborts with [ENotOwner]; an aborted call leaves the vault as it was and
    does not consume the coin. *)
Theorem add_funds_owner_only (vault : LegacyBox) (coin : Coin)
    (st : VState) :
  (sender (ctx st) = owner vault ->
   balance vault + coin_value coin <= u64_max ->
   add_funds vault coin st
   = Ok ({| id := id vault; owner := owner vault;
            beneficiary := beneficiary vault;
            unlock_time_ms := unlock_time_ms vault;
            last_heartbeat := last_heartbeat vault;
            encrypted_blob_id := encrypted_blob_id vault;
            locked_shares := locked_shares vault;
            balance := balance vault + coin_value coin |},
         {| ctx := ctx st; events := events st; transfers := transfers st;
            shared := shared st;
            deleted := deleted st ++ [coin_id coin] |}))
  /\
  (sender (ctx st) = owner vault ->
   u64_max < balance vault + coin_value coin ->
   execute (fun v => add_funds v coin) vault st
   = (vault, st, Some ArithmeticError))
  /\
  (sender (ctx st) <> owner vault ->
   execute (fun v => add_funds v coin) vault st
   = (vault, st, Some (Abort InVault ENotOwner))).
Proof.
  repeat split; intros Hs; run_entry.
  - intros Hfit. rewrite Hs, N.eqb_refl, add_fits by exact Hfit.
    reflexivity.
  - intros Hover. rewrite Hs, N.eqb_refl, add_overflows by exact Hover.
    reflexivity.
  - apply N.eqb_neq in Hs. rewrite Hs. reflexivity.
Qed.

(** The deposit of the test suite, a deposit that overflows and a deposit
    by a stranger. *)
Lemma add_funds_owner_only_witness :
  add_funds test_vault {| coin_id := (2, 0); coin_value := 500000000 |}
            (tx_by OWNER 3)
    = Ok (set_balance 1500000000 test_vault,
          {| ctx := ctx (tx_by OWNER 3); events := []; transfers := [];
             shared := []; deleted := [(2, 0)] |})
  /\ execute (fun v => add_funds v {| coin_id := (2, 0);
                                      coin_value := u64_max |})
             test_vault (tx_by OWNER 3)
     = (test_vault, tx_by OWNER 3, Some ArithmeticError)
  /\ execute (fun v => add_funds v {| coin_id := (2, 0);
                                      coin_value := 500000000 |})
             test_vault (tx_by STRANGER 3)
     = (test_vault, tx_by STRANGER 3, Some (Abort InVault ENotOwner)).
Proof.
  pose proof (add_funds_owner_only test_vault
                {| coin_id := (2, 0); coin_value := 500000000 |}
                (tx_by OWNER 3)) as (Hadd & _ & _).
  pose proof (add_funds_owner_only test_vault
                {| coin_id := (2, 0); coin_value := u64_max |}
                (tx_by OWNER 3)) as (_ & Hover & _).
  pose proof (add_funds_owner_only test_vault
                {| coin_id := (2, 0); coin_value := 500000000 |}
                (tx_by STRANGER 3)) as (_ & _ & Hstranger).
  split; [| split].
  - apply Hadd; [reflexivity | vm_compute; discriminate].
  - apply Hover; [reflexivity | vm_compute; reflexivity].
  - apply Hstranger. discriminate.
Defined.

(** X3: [update_beneficiary] by the owner changes the beneficiary and
    nothing else, and with it the right to claim: afterwards a claim by
    anybody but the new beneficiary, the old one included, aborts with
    [ENotBeneficiary], and a claim by the new beneficiary past the unlock
    instant empties the vault; a call by anybody else aborts with
    [ENotOwner]. *)
Theorem update_beneficiary_moves_claim (vault : LegacyBox)
    (heir : address) (st : VState) :
  (sender (ctx st) = owner vault ->
   exists updated,
     update_beneficiary vault heir st = Ok (updated, st)
     /\ updated
        = {| id := id vault; owner := owner vault; beneficiary := heir;
             unlock_time_ms := unlock_time_ms vault;
             last_heartbeat := last_heartbeat vault;
             encrypted_blob_id := encrypted_blob_id vault;
             locked_shares := locked_shares vault;
             balance := balance vault |}
     /\ (forall clock st2,
           sender (ctx st2) <> heir ->
           claim_legacy updated clock st2
           = Err (Abort InVault ENotBeneficiary))
     /\ (forall clock st2,
           sender (ctx st2) = heir ->
           last_heartbeat vault + unlock_time_ms vault < timestamp_ms clock ->
           timestamp_ms clock <= u64_max ->
           exists st3,
             claim_legacy updated clock st2
             = Ok (set_balance 0 updated, st3)
             /\ total (transfers st3)
                = total (transfers st2) + balance vault))
  /\
  (sender (ctx st) <> owner vault ->
   execute (fun v => update_beneficiary v heir) vault st
   = (vault, st, Some (Abort InVault ENotOwner))).
Proof.
  split; intros Hs.
  - eexists. split; [| split; [reflexivity |]].
    + run_entry. rewrite Hs, N.eqb_refl. reflexivity.
    + split.
      * intros clock st2 Hother. run_entry.
        cbn [set_beneficiary beneficiary].
        apply N.eqb_neq in Hother. rewrite Hother. reflexivity.
      * intros clock st2 Hheir Hlate Hclock.
        destruct (claim_legacy_pays (set_beneficiary heir vault) clock st2)
          as (st3 & Hclaim & Hpaid); trivial.
        exists st3. split; [exact Hclaim |].
        rewrite Hpaid. cbn [set_beneficiary balance beneficiary].
        unfold total. rewrite fold_right_app.
        destruct (N.ltb_spec 0 (balance vault)) as [Hpos | Hzero];
          cbn [fold_right fst coin_value].
        -- generalize (transfers st2) as l.
           induction l as [| p l IH]; cbn [fold_right]; lia.
        -- lia.
  - run_entry. apply N.eqb_neq in Hs. rewrite Hs. reflexivity.
Qed.

(** The update of the test suite: the stranger becomes the beneficiary. *)
Lemma update_beneficiary_moves_claim_witness :
  exists updated,
    update_beneficiary test_vault STRANGER (tx_by OWNER 2)
      = Ok (updated, tx_by OWNER 2)
    /\ beneficiary updated = STRANGER
    /\ claim_legacy updated (at_ms 86401001) (tx_by BENEFICIARY 3)
       = Err (Abort InVault ENotBeneficiary)
    /\ (exists st3,
          claim_legacy updated (at_ms 86401001) (tx_by STRANGER 3)
            = Ok (set_balance 0 updated, st3)
          /\ total (transfers st3) = DEPOSIT_AMOUNT)
    /\ execute (fun v => update_beneficiary v STRANGER) test_vault
               (tx_by STRANGER 2)
       = (test_vault, tx_by STRANGER 2, Some (Abort InVault ENotOwner)).
Proof.
  destruct (update_beneficiary_moves_claim test_vault STRANGER
              (tx_by OWNER 2)) as (Howner & _).
  destruct (Howner eq_refl) as (updated & Hupd & Hfields & Hother & Hheir).
  exists updated. split; [exact Hupd |].
  split; [rewrite Hfields; reflexivity |].
  split; [apply Hother; discriminate |].
  split.
  - apply (Hheir (at_ms 86401001) (tx_by STRANGER 3)).
    + reflexivity.
    + reflexivity.
    + vm_compute. discriminate.
  - apply (proj2 (update_beneficiary_moves_claim test_vault STRANGER
                    (tx_by STRANGER 2))).
    discriminate.
Defined.

(** X4: [update_unlock_time] by the owner stores any duration, unchecked,
    and changes nothing else; the unlock instant moves at once: when
    [last_heartbeat] plus the new duration fits in a [u64], [can_claim]
    compares the time with that sum, so a duration of 0 opens the vault to
    the beneficiary at any time after the last heartbeat, and when the sum
    does not fit every claim aborts; a call by anybody else aborts with
    [ENotOwner]. *)
Theorem update_unlock_time_moves_deadline (vault : LegacyBox)
    (duration : N) (st : VState) :
  (sender (ctx st) = owner vault ->
   exists updated,
     update_unlock_time vault duration st = Ok (updated, st)
     /\ updated
        = {| id := id vault; owner := owner vault;
             beneficiary := beneficiary vault;
             unlock_time_ms := duration;
             last_heartbeat := last_heartbeat vault;
             encrypted_blob_id := encrypted_blob_id vault;
             locked_shares := locked_shares vault;
             balance := balance vault |}
     /\ (last_heartbeat vault + duration <= u64_max ->
         forall clock,
           can_claim updated clock
           = Ok (last_heartbeat vault + duration <? timestamp_ms clock))
     /\ (duration = 0 ->
         forall clock st2,
           sender (ctx st2) = beneficiary vault ->
           last_heartbeat vault < timestamp_ms clock ->
           timestamp_ms clock <= u64_max ->
           exists st3,
             claim_legacy updated clock st2
             = Ok (set_balance 0 updated, st3))
     /\ (u64_max < last_heartbeat vault + duration ->
         forall clock st2,
           exists f, claim_legacy updated clock st2 = Err f))
  /\
  (sender (ctx st) <> owner vault ->
   execute (fun v => update_unlock_time v duration) vault st
   = (vault, st, Some (Abort InVault ENotOwner))).
Proof.
  split; intros Hs.
  - eexists. split; [| split; [reflexivity |]].
    + run_entry. rewrite Hs, N.eqb_refl. reflexivity.
    + split; [| split].
      * intros Hfit clock. unfold can_claim.
        cbn [set_unlock_time_ms last_heartbeat unlock_time_ms].
        rewrite add_fits by exact Hfit. reflexivity.
      * intros -> clock st2 Hb Hlate Hclock.
        destruct (claim_legacy_pays (set_unlock_time_ms 0 vault) clock st2)
          as (st3 & Hclaim & _); trivial.
        -- cbn [set_unlock_time_ms last_heartbeat unlock_time_ms]. lia.
        -- exists st3. exact Hclaim.
      * intros Hover clock st2. run_entry.
        cbn [set_unlock_time_ms beneficiary last_heartbeat unlock_time_ms].
        destruct (sender (ctx st2) =? beneficiary vault);
          [| eexists; reflexivity].
        rewrite add_overflows by exact Hover. eexists. reflexivity.
  - run_entry. apply N.eqb_neq in Hs. rewrite Hs. reflexivity.
Qed.

(** The owner of the test vault sets the duration to 0 at time 2000; the
    beneficiary claims one millisecond after the last heartbeat. *)
Lemma update_unlock_time_moves_deadline_witness :
  exists updated,
    update_unlock_time test_vault 0 (tx_by OWNER 2)
      = Ok (updated, tx_by OWNER 2)
    /\ can_claim updated (at_ms 1001) = Ok true
    /\ (exists st3,
          claim_legacy updated (at_ms 1001) (tx_by BENEFICIARY 3)
          = Ok (set_balance 0 updated, st3))
    /\ execute (fun v => update_unlock_time v 0) test_vault
               (tx_by BENEFICIARY 2)
       = (test_vault, tx_by BENEFICIARY 2, Some (Abort InVault ENotOwner)).
Proof.
  destruct (update_unlock_time_moves_deadline test_vault 0 (tx_by OWNER 2))
    as (Howner & _).
  destruct (Howner eq_refl) as (updated & Hupd & _ & Hcan & Hzero & _).
  exists updated. split; [exact Hupd |].
  split; [apply (Hcan ltac:(vm_compute; discriminate) (at_ms 1001)) |].
  split.
  - apply (Hzero eq_refl (at_ms 1001) (tx_by BENEFICIARY 3)).
    + reflexivity.
    + reflexivity.
    + vm_compute. discriminate.
  - apply (proj2 (update_unlock_time_moves_deadline test_vault 0
                    (tx_by BENEFICIARY 2))).
    discriminate.
Defined.

(** X5: a heartbeat restarts the wait: once the owner's [im_alive] at time
    [t] has gone through, [can_claim] is not true and every claim fails at
    every time up to and including [t + unlock_time_ms], also when the
    vault could be claimed just before the heartbeat. *)
Theorem im_alive_restarts_wait (vault beating : LegacyBox) (t : N)
    (st st' : VState) :
  im_alive vault (at_ms t) st = Ok (beating, st') ->
  forall now,
    now <= t + unlock_time_ms vault ->
    can_claim beating (at_ms now) <> Ok true
    /\ forall st2, exists f, claim_legacy beating (at_ms now) st2 = Err f.
Proof.
  intros H now Hnow.
  destruct (im_alive_ok_inv _ _ _ _ _ H) as (_ & ->).
  split.
  - unfold can_claim, checked_add.
    cbn [set_last_heartbeat last_heartbeat unlock_time_ms timestamp_ms
         at_ms].
    destruct (t + unlock_time_ms vault <=? u64_max); cbn [res_bind];
      [| discriminate].
    destruct (N.ltb_spec (t + unlock_time_ms vault) now); [lia |].
    discriminate.
  - intros st2. apply claim_legacy_fails. right.
    cbn [set_last_heartbeat last_heartbeat unlock_time_ms timestamp_ms
         at_ms].
    exact Hnow.
Qed.

(** The test vault can be claimed at time 86401001; the owner beats at
    that very time and the claim of the same instant fails. *)
Lemma im_alive_restarts_wait_witness :
  can_claim test_vault (at_ms 86401001) = Ok true
  /\ can_claim (set_last_heartbeat 86401001 test_vault) (at_ms 86401001)
     <> Ok true
  /\ exists f,
       claim_legacy (set_last_heartbeat 86401001 test_vault)
                    (at_ms 86401001) (tx_by BENEFICIARY 3) = Err f.
Proof.
  split; [reflexivity |].
  destruct (im_alive_restarts_wait test_vault
              (set_last_heartbeat 86401001 test_vault) 86401001
              (tx_by OWNER 2)
              {| ctx := ctx (tx_by OWNER 2);
                 events := [HeartbeatUpdated (1, 0) 86401001];
                 transfers := []; shared := []; deleted := [] |}
              eq_refl 86401001)
    as (Hcan & Hclaim).
  - vm_compute. discriminate.
  - split; [exact Hcan | apply Hclaim].
Defined.

(** X6: [time_until_claim] never aborts on its subtraction: when
    [last_heartbeat + unlock_time_ms] fits in a [u64] it answers that sum
    minus the time, or 0 when the time has reached the sum, and the answer
    does not exceed [unlock_time_ms] as long as the time is not before the
    last heartbeat; it aborts exactly when the sum does not fit. *)
Theorem time_until_claim_remaining (vault : LegacyBox) (clock : Clock) :
  (last_heartbeat vault + unlock_time_ms vault <= u64_max ->
   exists remaining,
     time_until_claim vault clock = Ok remaining
     /\ remaining + timestamp_ms clock
        = N.max (timestamp_ms clock)
                (last_heartbeat vault + unlock_time_ms vault)
     /\ (last_heartbeat vault <= timestamp_ms clock ->
         remaining <= unlock_time_ms vault))
  /\
  (u64_max < last_heartbeat vault + unlock_time_ms vault ->
   time_until_claim vault clock = Err ArithmeticError).
Proof.
  unfold time_until_claim. split.
  - intros Hfit. rewrite add_fits by exact Hfit. cbn [res_bind].
    destruct (N.leb_spec (last_heartbeat vault + unlock_time_ms vault)
                         (timestamp_ms clock)) as [Hle | Hgt].
    + exists 0. repeat split; lia.
    + unfold checked_sub.
      destruct (N.leb_spec (timestamp_ms clock)
                  (last_heartbeat vault + unlock_time_ms vault))
        as [_ | Habs]; [| lia].
      eexists. split; [reflexivity |]. split; lia.
  - intros Hover. rewrite add_overflows by exact Hover. reflexivity.
Qed.

(** The remaining time of the test suite, at time 2000. *)
Lemma time_until_claim_remaining_witness :
  exists remaining,
    time_until_claim test_vault (at_ms 2000) = Ok remaining
    /\ remaining + 2000 = 86401000
    /\ remaining <= UNLOCK_TIME_MS.
Proof.
  destruct (proj1 (time_until_claim_remaining test_vault (at_ms 2000))
              ltac:(vm_compute; discriminate))
    as (remaining & Htime & Hsum & Hbound).
  exists remaining. split; [exact Htime |].
  split; [exact Hsum |].
  apply Hbound. vm_compute. discriminate.
Defined.

(** X7: waiting for what [time_until_claim] answers is one millisecond
    short: when it answers a positive [remaining] at time [now], the
    beneficiary's claim at [now + remaining] aborts with
    [EUnlockTimeNotReached], and the claim one millisecond later goes
    through. *)
Theorem claim_after_time_until_claim (vault : LegacyBox) (now remaining : N)
    (st : VState) :
  time_until_claim vault (at_ms now) = Ok remaining ->
  0 < remaining ->
  sender (ctx st) = beneficiary vault ->
  claim_legacy vault (at_ms (now + remaining)) st
  = Err (Abort InVault EUnlockTimeNotReached)
  /\ (now + remaining + 1 <= u64_max ->
      exists st',
        claim_legacy vault (at_ms (now + remaining + 1)) st
        = Ok (set_balance 0 vault, st')).
Proof.
  unfold time_until_claim, checked_add.
  destruct (N.leb_spec (last_heartbeat vault + unlock_time_ms vault)
                       u64_max) as [Hfit | _]; cbn [res_bind];
    [| discriminate].
  cbn [timestamp_ms at_ms].
  destruct (N.leb_spec (last_heartbeat vault + unlock_time_ms vault) now)
    as [Hle | Hgt].
  - intros H. injection H as <-. lia.
  - unfold checked_sub.
    destruct (N.leb_spec now
                (last_heartbeat vault + unlock_time_ms vault))
      as [_ | Habs]; [| lia].
    intros H Hpos Hs. injection H as <-. split.
    + run_entry. rewrite Hs, N.eqb_refl, add_fits by exact Hfit.
      cbn [timestamp_ms at_ms].
      destruct (N.ltb_spec (last_heartbeat vault + unlock_time_ms vault)
                  (now + (last_heartbeat vault + unlock_time_ms vault
                          - now))); [lia | reflexivity].
    + intros Hmax.
      destruct (claim_legacy_pays vault
                  (at_ms (now + (last_heartbeat vault
                                 + unlock_time_ms vault - now) + 1)) st)
        as (st' & Hclaim & _); trivial.
      * cbn [timestamp_ms at_ms]. lia.
      * exists st'. exact Hclaim.
Qed.

(** The test vault at time 2000: 86399000 milliseconds remain; the claim
    at 86401000 fails and the claim at 86401001 goes through. *)
Lemma claim_after_time_until_claim_witness :
  claim_legacy test_vault (at_ms (2000 + 86399000)) (tx_by BENEFICIARY 2)
    = Err (Abort InVault EUnlockTimeNotReached)
  /\ exists st',
       claim_legacy test_vault (at_ms (2000 + 86399000 + 1))
                    (tx_by BENEFICIARY 2)
       = Ok (set_balance 0 test_vault, st').
Proof.
  destruct (claim_after_time_until_claim test_vault 2000 86399000
              (tx_by BENEFICIARY 2) eq_refl eq_refl eq_refl)
    as (Hshort & Hnext).
  split; [exact Hshort |].
  apply Hnext. vm_compute. discriminate.
Defined.

(** *** Sequences of transactions *)

(** What one transaction does to the vault. *)
Lemma submit_cases (c : Call) (vault : LegacyBox) :
  (exists f,
     submit c vault
     = (vault, {| failure := Some f; emitted := []; paid := [] |}))
  \/
  (exists v o,
     submit c vault = (v, o) /\ failure o = None
     /\ match entry c with
        | ImAlive =>
            caller c = owner vault
            /\ v = set_last_heartbeat (now c) vault /\ paid o = []
        | ClaimLegacy =>
            caller c = beneficiary vault
            /\ last_heartbeat vault + unlock_time_ms vault < now c
            /\ v = set_balance 0 vault
            /\ total (paid o) = balance vault
            /\ Forall (fun p => snd p = caller c) (paid o)
        | AddFunds coin =>
            caller c = owner vault
            /\ v = set_balance (balance vault + coin_value coin) vault
            /\ paid o = []
        | UpdateBeneficiary heir =>
            caller c = owner vault
            /\ v = set_beneficiary heir vault /\ paid o = []
        | UpdateUnlockTime duration =>
            caller c = owner vault
            /\ v = set_unlock_time_ms duration vault /\ paid o = []
        end).
Proof.
  unfold submit, entry_tx.
  destruct (entry c) as [| | coin | heir | duration]; run_entry;
    cbn [tx_by ctx sender events transfers].
  - destruct (N.eqb_spec (caller c) (owner vault)) as [Hs | _].
    + right. do 2 eexists. split; [reflexivity |]. cbn. auto.
    + left. eexists. reflexivity.
  - destruct (N.eqb_spec (caller c) (beneficiary vault)) as [Hs | _];
      [| left; eexists; reflexivity].
    unfold checked_add.
    destruct (last_heartbeat vault + unlock_time_ms vault <=? u64_max);
      [| left; eexists; reflexivity].
    cbn [timestamp_ms at_ms].
    destruct (N.ltb_spec (last_heartbeat vault + unlock_time_ms vault)
                         (now c)) as [Hlt | _];
      [| left; eexists; reflexivity].
    right. destruct (N.ltb_spec 0 (balance vault)) as [Hpos | Hzero].
    + unfold balance_split. rewrite N.leb_refl. cbn [fst snd].
      rewrite N.sub_diag. do 2 eexists. split; [reflexivity |].
      cbn. repeat split; trivial; try lia.
      constructor; [reflexivity | constructor].
    + assert (Hb : balance vault = 0) by lia.
      do 2 eexists. split; [reflexivity |]. cbn.
      repeat split; trivial; try lia.
      rewrite <- Hb. symmetry. apply set_balance_id.
  - destruct (N.eqb_spec (caller c) (owner vault)) as [Hs | _];
      [| left; eexists; reflexivity].
    unfold checked_add.
    destruct (balance vault + coin_value coin <=? u64_max).
    + right. do 2 eexists. split; [reflexivity |]. cbn. auto.
    + left. eexists. reflexivity.
  - destruct (N.eqb_spec (caller c) (owner vault)) as [Hs | _].
    + right. do 2 eexists. split; [reflexivity |]. cbn. auto.
    + left. eexists. reflexivity.
  - destruct (N.eqb_spec (caller c) (owner vault)) as [Hs | _].
    + right. do 2 eexists. split; [reflexivity |]. cbn. auto.
    + left. eexists. reflexivity.
Qed.

Lemma replay_cons (c : Call) (rest : list Call) (vault : LegacyBox) :
  replay (c :: rest) vault
  = (fst (replay rest (fst (submit c vault))),
     snd (submit c vault) :: snd (replay rest (fst (submit c vault)))).
Proof.
  cbn [replay]. destruct (submit c vault) as [v o]. cbn [fst snd].
  destruct (replay rest v) as [v' os]. reflexivity.
Qed.

(** The fields that no borrowed-vault entry function writes. *)
Lemma submit_keeps_identity (c : Call) (vault : LegacyBox) :
  id (fst (submit c vault)) = id vault
  /\ owner (fst (submit c vault)) = owner vault
  /\ encrypted_blob_id (fst (submit c vault)) = encrypted_blob_id vault
  /\ locked_shares (fst (submit c vault)) = locked_shares vault.
Proof.
  destruct (submit_cases c vault) as [(f & ->) | (v & o & -> & _ & H)];
    cbn [fst]; [auto |].
  destruct (entry c); decompose [and] H; subst v; cbn; auto.
Qed.

(** X8: whatever transactions are run on a vault, by whomever and in
    whatever order, its identifier, its owner, the blob id and the locked
    shares stay what they were at creation; every transaction leaves
    exactly one outcome. *)
Theorem replay_keeps_identity (calls : list Call) (vault : LegacyBox) :
  id (fst (replay calls vault)) = id vault
  /\ owner (fst (replay calls vault)) = owner vault
  /\ encrypted_blob_id (fst (replay calls vault)) = encrypted_blob_id vault
  /\ locked_shares (fst (replay calls vault)) = locked_shares vault
  /\ List.length (snd (replay calls vault)) = List.length calls.
Proof.
  revert vault. induction calls as [| c rest IH]; intros vault.
  - cbn. auto.
  - rewrite replay_cons. cbn [fst snd List.length].
    destruct (IH (fst (submit c vault))) as (Hid & Ho & Hb & Hs & Hl).
    destruct (submit_keeps_identity c vault) as (Hid' & Ho' & Hb' & Hs').
    rewrite Hid, Ho, Hb, Hs, Hl. auto.
Qed.

(** X9: on an existing vault, transactions signed by neither the owner nor
    the beneficiary achieve nothing: each [im_alive], [claim_legacy],
    [add_funds], [update_beneficiary] and [update_unlock_time] of theirs
    aborts, emits no event and moves no coin, the vault is left exactly as
    it was, and a [cancel_legacy] of theirs aborts with [ENotOwner]. *)
Theorem replay_strangers (calls : list Call) (vault : LegacyBox) :
  Forall (fun c => caller c <> owner vault
                   /\ caller c <> beneficiary vault) calls ->
  fst (replay calls vault) = vault
  /\ Forall (fun o => failure o <> None /\ emitted o = [] /\ paid o = [])
            (snd (replay calls vault))
  /\ forall st : VState,
       sender (ctx st) <> owner vault ->
       sender (ctx st) <> beneficiary vault ->
       cancel_legacy (fst (replay calls vault)) st
       = Err (Abort InVault ENotOwner).
Proof.
  intros Hcalls.
  assert (Hsame : fst (replay calls vault) = vault
                  /\ Forall (fun o => failure o <> None /\ emitted o = []
                                       /\ paid o = [])
                            (snd (replay calls vault))).
  { induction Hcalls as [| c rest (Ho & Hb) _ IH].
    - cbn. auto.
    - rewrite replay_cons.
      assert (Hsub : exists f,
                 submit c vault
                 = (vault,
                    {| failure := Some f; emitted := []; paid := [] |})).
      { destruct (submit_cases c vault) as [Hf | (v & o & _ & _ & H)];
          [exact Hf |].
        destruct (entry c); decompose [and] H; contradiction. }
      destruct Hsub as (f & ->). cbn [fst snd].
      destruct IH as (-> & Hos). split; [reflexivity |].
      constructor; [| exact Hos].
      cbn. repeat split; discriminate. }
  destruct Hsame as (Hvault & Houtcomes).
  split; [exact Hvault |]. split; [exact Houtcomes |].
  intros st Hnot_owner _. rewrite Hvault. run_entry.
  apply N.eqb_neq in Hnot_owner. rewrite Hnot_owner. reflexivity.
Qed.

(** A stranger tries every entry function on the test vault, past the
    unlock instant, and then to cancel it. *)
Lemma replay_strangers_witness :
  let calls :=
    [ {| caller := STRANGER; digest := 2; now := 86401001;
         entry := ClaimLegacy |};
      {| caller := STRANGER; digest := 3; now := 86401002;
         entry := ImAlive |};
      {| caller := STRANGER; digest := 4; now := 86401003;
         entry := AddFunds {| coin_id := (4, 0); coin_value := 5 |} |};
      {| caller := STRANGER; digest := 5; now := 86401004;
         entry := UpdateBeneficiary STRANGER |};
      {| caller := STRANGER; digest := 6; now := 86401005;
         entry := UpdateUnlockTime 0 |} ] in
  fst (replay calls test_vault) = test_vault
  /\ Forall (fun o => failure o <> None /\ emitted o = [] /\ paid o = [])
            (snd (replay calls test_vault))
  /\ cancel_legacy (fst (replay calls test_vault)) (tx_by STRANGER 7)
     = Err (Abort InVault ENotOwner).
Proof.
  cbv zeta.
  match goal with
  | |- fst (replay ?calls _) = _ /\ _ =>
      destruct (replay_strangers calls test_vault) as (Hvault & Hout & Hcancel)
  end.
  - repeat constructor; cbn; discriminate.
  - split; [exact Hvault |]. split; [exact Hout |].
    apply Hcancel; discriminate.
Defined.


(** A lower bound on [last_heartbeat] survives transactions that come at
    or after it. *)
Lemma replay_heartbeat_floor (calls : list Call) :
  forall (vault : LegacyBox) (floor : N),
    Forall (fun c => floor <= now c) calls ->
    floor <= last_heartbeat vault ->
    floor <= last_heartbeat (fst (replay calls vault)).
Proof.
  induction calls as [| c rest IH]; intros vault floor Hlater Hfloor.
  - exact Hfloor.
  - rewrite replay_cons. cbn [fst].
    inversion Hlater as [| ? ? Hc Hrest]; subst.
    apply IH; [exact Hrest |].
    destruct (submit_cases c vault) as [(f & ->) | (v & o & -> & _ & H)];
      cbn [fst]; [exact Hfloor |].
    destruct (entry c); decompose [and] H; subst v; cbn; assumption.
Qed.

(** X11: [last_heartbeat] never goes back: when no transaction of a
    sequence runs at a clock time before the vault's [last_heartbeat], the
    [last_heartbeat] at the end is at least the one at the start. *)
Theorem replay_heartbeat_monotone (calls : list Call) (vault : LegacyBox) :
  Forall (fun c => last_heartbeat vault <= now c) calls ->
  last_heartbeat vault <= last_heartbeat (fst (replay calls vault)).
Proof.
  intros Hlater. apply replay_heartbeat_floor; [exact Hlater | lia].
Qed.

(** A heartbeat, a deposit and a refused claim on the test vault. *)
Lemma replay_heartbeat_monotone_witness :
  let calls :=
    [ {| caller := OWNER; digest := 2; now := 50000; entry := ImAlive |};
      {| caller := OWNER; digest := 3; now := 60000;
         entry := AddFunds {| coin_id := (3, 0); coin_value := 5 |} |};
      {| caller := BENEFICIARY; digest := 4; now := 70000;
         entry := ClaimLegacy |} ] in
  last_heartbeat test_vault
  <= last_heartbeat (fst (replay calls test_vault)).
Proof.
  cbv zeta. apply replay_heartbeat_monotone.
  repeat constructor; vm_compute; discriminate.
Defined.

(** X12: the dead man's switch: when transactions run in the order of the
    clock and a claim goes through at the end, every heartbeat accepted
    before it was sent more than the vault's unlock duration (the one in
    force at the claim) before the claim. *)
Theorem replay_claim_after_silence (calls : list Call) (claim : Call)
    (vault : LegacyBox) :
  in_clock_order (calls ++ [claim]) ->
  entry claim = ClaimLegacy ->
  failure (snd (submit claim (fst (replay calls vault)))) = None ->
  Forall (fun co =>
            accepted_heartbeat co ->
            now (fst co) + unlock_time_ms (fst (replay calls vault))
            < now claim)
         (combine calls (snd (replay calls vault))).
Proof.
  intros Horder Hentry Hok.
  assert (Hdue : last_heartbeat (fst (replay calls vault))
                 + unlock_time_ms (fst (replay calls vault)) < now claim).
  { destruct (submit_cases claim (fst (replay calls vault)))
      as [(f & Hsub) | (v & o & Hsub & _ & H)];
      rewrite Hsub in Hok; cbn in Hok; [discriminate |].
    rewrite Hentry in H. tauto. }
  clear Hok Hentry.
  cut (Forall (fun co =>
                 accepted_heartbeat co ->
                 now (fst co) <= last_heartbeat (fst (replay calls vault)))
              (combine calls (snd (replay calls vault)))).
  { apply Forall_impl. intros co Hco Hacc. specialize (Hco Hacc). lia. }
  clear Hdue. revert vault Horder.
  induction calls as [| c rest IH]; intros vault Horder.
  - constructor.
  - rewrite replay_cons. cbn [fst snd combine].
    cbn [app in_clock_order] in Horder. destruct Horder as (Hlater & Hrest).
    constructor; [| apply IH; exact Hrest].
    cbn [fst snd]. intros (Hbeat & Haccepted).
    apply replay_heartbeat_floor.
    + apply Forall_app in Hlater. tauto.
    + destruct (submit_cases c vault) as [(f & Hsub) | (v & o & Hsub & _ & H)];
        rewrite Hsub in *; cbn [fst snd failure] in *; [discriminate |].
      rewrite Hbeat in H. decompose [and] H. subst v. cbn. lia.
Qed.

(** The owner of the test vault beats at 50000 and at 60000, then falls
    silent; the claim at 86460001 goes through. *)
Lemma replay_claim_after_silence_witness :
  let calls :=
    [ {| caller := OWNER; digest := 2; now := 50000; entry := ImAlive |};
      {| caller := OWNER; digest := 3; now := 60000; entry := ImAlive |} ] in
  let claim :=
    {| caller := BENEFICIARY; digest := 4; now := 86460001;
       entry := ClaimLegacy |} in
  Forall (fun co =>
            accepted_heartbeat co ->
            now (fst co) + unlock_time_ms (fst (replay calls test_vault))
            < now claim)
         (combine calls (snd (replay calls test_vault))).
Proof.
  cbv zeta. apply replay_claim_after_silence.
  - cbn. repeat split; repeat constructor; vm_compute; discriminate.
  - reflexivity.
  - reflexivity.
Defined.

(** X13: as long as the owner does not change the beneficiary, every coin
    that leaves the vault through a sequence of transactions goes to the
    vault's beneficiary, and to nobody else. *)
Theorem replay_pays_beneficiary (calls : list Call) (vault : LegacyBox) :
  Forall (fun c => match entry c with
                   | UpdateBeneficiary _ => caller c <> owner vault
                   | _ => True
                   end) calls ->
  Forall (fun o => Forall (fun p => snd p = beneficiary vault) (paid o))
         (snd (replay calls vault)).
Proof.
  revert vault. induction calls as [| c rest IH]; intros vault Hcalls.
  - constructor.
  - rewrite replay_cons. cbn [snd].
    inversion Hcalls as [| ? ? Hc Hrest]; subst.
    assert (Hstep : Forall (fun p => snd p = beneficiary vault)
                           (paid (snd (submit c vault)))
                    /\ owner (fst (submit c vault)) = owner vault
                    /\ beneficiary (fst (submit c vault))
                       = beneficiary vault).
    { destruct (submit_cases c vault) as [(f & ->) | (v & o & -> & _ & H)];
        cbn [fst snd paid]; [auto |].
      destruct (entry c); decompose [and] H; subst v; cbn;
        repeat match goal with
               | E : paid o = [] |- _ => rewrite E; clear E
               end; auto.
      - split; [| auto].
        match goal with
        | E : caller c = beneficiary vault |- _ => rewrite <- E
        end.
        assumption.
      - contradiction. }
    destruct Hstep as (Hpaid & Hown & Hben).
    constructor; [exact Hpaid |].
    rewrite <- Hben. apply IH.
    rewrite Hown. exact Hrest.
Qed.

(** The owner refills the test vault after a first claim; both claims pay
    the beneficiary. *)
Lemma replay_pays_beneficiary_witness :
  let calls :=
    [ {| caller := BENEFICIARY; digest := 2; now := 86401001;
         entry := ClaimLegacy |};
      {| caller := OWNER; digest := 3; now := 86401002;
         entry := AddFunds {| coin_id := (3, 0); coin_value := 7 |} |};
      {| caller := BENEFICIARY; digest := 4; now := 86401003;
         entry := ClaimLegacy |} ] in
  Forall (fun o => Forall (fun p => snd p = BENEFICIARY) (paid o))
         (snd (replay calls test_vault)).
Proof.
  cbv zeta. apply (replay_pays_beneficiary _ test_vault).
  repeat constructor.
Defined.

Lemma total_app (l1 l2 : list (Coin * address)) :
  total (l1 ++ l2) = total l1 + total l2.
Proof.
  unfold total. induction l1 as [| p l1 IH]; cbn [app fold_right].
  - reflexivity.
  - rewrite IH. lia.
Qed.

(** X20: creating a vault and cancelling it is a refund: the vault that
    [create_vault] shares can be cancelled by its creator at any time, and
    the cancellation pays the creator exactly the value of the coin that was
    deposited; nobody else can cancel it. *)
Theorem cancel_legacy_refunds_deposit (benef : address) (duration : N)
    (blob_id share_3 share_4 share_5 : string) (coin : Coin)
    (clock : Clock) (st : VState) :
  exists vault st',
    create_vault benef duration blob_id share_3 share_4 share_5 coin
                 clock st = Ok (tt, st')
    /\ shared st' = shared st ++ [vault]
    /\ (forall st2,
          sender (ctx st2) = sender (ctx st) ->
          exists st3,
            cancel_legacy vault st2 = Ok (tt, st3)
            /\ total (transfers st3)
               = total (transfers st2) + coin_value coin
            /\ Forall (fun p => snd p = sender (ctx st)
                                \/ In p (transfers st2))
                      (transfers st3)
            /\ deleted st3 = deleted st2 ++ [id vault])
    /\ (forall st2,
          sender (ctx st2) <> sender (ctx st) ->
          cancel_legacy vault st2 = Err (Abort InVault ENotOwner)).
Proof.
  eexists. eexists.
  split; [unfold create_vault; run_entry; reflexivity |].
  split; [reflexivity |]. split.
  - intros st2 Hsame. run_entry. cbn [owner balance id].
    rewrite Hsame, N.eqb_refl.
    destruct (N.ltb_spec 0 (coin_value coin)) as [Hpos | Hzero].
    + eexists. split; [reflexivity |]. cbn.
      rewrite total_app. cbn [total fold_right fst coin_value].
      repeat split; try lia.
      apply Forall_app. split.
      * apply Forall_forall. auto.
      * constructor; [left; reflexivity | constructor].
    + assert (Hb : coin_value coin = 0) by lia.
      unfold balance_destroy_zero. rewrite Hb. cbn.
      eexists. split; [reflexivity |]. cbn [transfers deleted].
      repeat split; try lia.
      apply Forall_forall. auto.
  - intros st2 Hother. run_entry. cbn [owner].
    apply N.eqb_neq in Hother. rewrite Hother. reflexivity.
Qed.

(** The vault of the test suite, created by the owner and cancelled by the
    owner; the beneficiary cannot cancel it. *)
Lemma cancel_legacy_refunds_deposit_witness :
  exists vault st',
    create_vault BENEFICIARY UNLOCK_TIME_MS "blob_id" "share_3" "share_4"
      "share_5" {| coin_id := (0, 0); coin_value := DEPOSIT_AMOUNT |}
      (at_ms 1000) (tx_by OWNER 1) = Ok (tt, st')
    /\ (exists st3,
          cancel_legacy vault (tx_by OWNER 2) = Ok (tt, st3)
          /\ total (transfers st3) = DEPOSIT_AMOUNT)
    /\ cancel_legacy vault (tx_by BENEFICIARY 2)
       = Err (Abort InVault ENotOwner).
Proof.
  destruct (cancel_legacy_refunds_deposit BENEFICIARY UNLOCK_TIME_MS
              "blob_id" "share_3" "share_4" "share_5"
              {| coin_id := (0, 0); coin_value := DEPOSIT_AMOUNT |}
              (at_ms 1000) (tx_by OWNER 1))
    as (vault & st' & Hcreate & _ & Hcancel & Hother).
  exists vault, st'. split; [exact Hcreate |]. split.
  - destruct (Hcancel (tx_by OWNER 2) eq_refl) as (st3 & H3 & Htotal & _).
    exists st3. split; [exact H3 | exact Htotal].
  - apply Hother. discriminate.
Defined.

(** X21: [can_claim] tells the beneficiary exactly whether a claim will go
    through: at any time of the clock, it answers true if and only if
    [claim_legacy] signed by the beneficiary succeeds at that time. *)
Theorem can_claim_predicts_claim (vault : LegacyBox) (clock : Clock)
    (st : VState) :
  sender (ctx st) = beneficiary vault ->
  timestamp_ms clock <= u64_max ->
  (can_claim vault clock = Ok true
   <-> exists claimed st', claim_legacy vault clock st = Ok (claimed, st')).
Proof.
  intros Hs Hclock. split.
  - unfold can_claim, checked_add.
    destruct (N.leb_spec (last_heartbeat vault + unlock_time_ms vault)
                         u64_max) as [Hfit | _]; cbn [res_bind];
      [| discriminate].
    destruct (N.ltb_spec (last_heartbeat vault + unlock_time_ms vault)
                         (timestamp_ms clock)) as [Hlt | _];
      [| discriminate].
    intros _.
    destruct (claim_legacy_pays vault clock st Hs Hlt Hclock)
      as (st' & Hclaim & _).
    eauto.
  - intros (claimed & st' & Hclaim).
    destruct (N.le_gt_cases (timestamp_ms clock)
                (last_heartbeat vault + unlock_time_ms vault))
      as [Hearly | Hlate].
    + destruct (claim_legacy_fails vault clock st (or_intror Hearly))
        as (f & Hf).
      rewrite Hf in Hclaim. discriminate.
    + unfold can_claim. rewrite add_fits by lia. cbn [res_bind].
      f_equal. apply N.ltb_lt. exact Hlate.
Qed.

(** The test vault one millisecond past its unlock instant. *)
Lemma can_claim_predicts_claim_witness :
  can_claim test_vault (at_ms 86401001) = Ok true
  /\ exists claimed st',
       claim_legacy test_vault (at_ms 86401001) (tx_by BENEFICIARY 2)
       = Ok (claimed, st').
Proof.
  pose proof (can_claim_predicts_claim test_vault (at_ms 86401001)
                (tx_by BENEFICIARY 2) eq_refl
                ltac:(vm_compute; discriminate)) as [Hyes _].
  split; [reflexivity | apply Hyes; reflexivity].
Defined.

End VaultMore.

(** ** Properties of the engine's flows *)
Module FlowProps.
Import Nacl NaclBox Json Secrets CryptoEngine Interpolation CryptoFlows.
Import Contracts Instances.
Local Open Scope string_scope.
Local Open Scope nat_scope.

(** *** The libraries of the examples meet the contract *)

Lemma clear_box_laws : SecretBoxLaws clear_box.
Proof.
  constructor.
  - intros rng n. cbn [randomBytes clear_box].
    rewrite length_map. apply length_seq.
  - intros b. cbn [decodeBase64 encodeBase64 clear_box].
    rewrite list_byte_of_string_of_list_byte. reflexivity.
  - intros s. eexists. reflexivity.
  - intros s b H. cbn [decodeUTF8 encodeUTF8 clear_box] in *.
    injection H as <-. rewrite string_of_list_byte_of_string. reflexivity.
  - reflexivity.
  - intros m n k _ _. exists m. reflexivity.
  - intros m n k c H. cbn [secretbox secretbox_open clear_box] in *.
    injection H as <-. reflexivity.
Qed.

Lemma clear_envelope_laws : BoxLaws clear_box clear_envelope.
Proof.
  constructor.
  - intros m n rngS rngR _. exists m. reflexivity.
  - intros m n rngS rngR c H. cbn [box box_open clear_envelope] in *.
    injection H as <-. reflexivity.
Qed.

Lemma read_length_ones (n : nat) (s : string) :
  read_length (ones n ++ String "|" s) = Some (n, s).
Proof.
  induction n as [| n IH]; cbn [ones String.append read_length].
  - reflexivity.
  - rewrite IH. reflexivity.
Qed.

Lemma split_at_length (s rest : string) :
  split_at (String.length s) (s ++ rest) = Some (s, rest).
Proof.
  induction s as [| c s IH]; cbn [String.length String.append split_at].
  - destruct rest; reflexivity.
  - rewrite IH. reflexivity.
Qed.

Lemma append_assoc (a b c : string) : (a ++ b) ++ c = a ++ (b ++ c).
Proof.
  induction a as [| x a IH]; cbn [String.append]; [| rewrite IH];
    reflexivity.
Qed.

Lemma read_field_write_field (s rest : string) :
  read_field (write_field s ++ rest) = Some (s, rest).
Proof.
  unfold read_field, write_field.
  rewrite append_assoc. cbn [String.append].
  rewrite read_length_ones. apply split_at_length.
Qed.

Lemma append_empty (a : string) : a ++ "" = a.
Proof.
  induction a as [| x a IH]; cbn [String.append]; [| rewrite IH];
    reflexivity.
Qed.

Lemma prefixed_text_laws : JsonLaws prefixed_text.
Proof.
  constructor. intros [c n k].
  cbn [parse stringify prefixed_text]. unfold read_package, write_package.
  cbn [ciphertext Json.nonce ephemeralPublicKey].
  rewrite read_field_write_field, read_field_write_field.
  rewrite <- (append_empty (write_field k)), read_field_write_field.
  reflexivity.
Qed.

(** Bytes stay bytes under the operations of the field. *)
Lemma byte_land (a : N) : (a < 256)%N <-> N.land a 255 = a.
Proof.
  change 255%N with (N.ones 8). rewrite N.land_ones. split.
  - intros H. apply N.mod_small. exact H.
  - intros H. rewrite <- H. apply N.mod_lt. discriminate.
Qed.

Lemma lxor_byte (a b : N) :
  (a < 256)%N -> (b < 256)%N -> (N.lxor a b < 256)%N.
Proof.
  rewrite !byte_land. intros Ha Hb.
  apply N.bits_inj. intros n.
  rewrite N.land_spec, !N.lxor_spec, <- Ha, <- Hb, !N.land_spec.
  destruct (N.testbit a n), (N.testbit b n), (N.testbit 255 n);
    reflexivity.
Qed.

Lemma xtime_byte (a : N) : (GF256.xtime a < 256)%N.
Proof.
  unfold GF256.xtime. apply lxor_byte.
  - apply byte_land. rewrite <- N.land_assoc. reflexivity.
  - destruct (N.testbit a 7); reflexivity.
Qed.

Lemma gf_mul_loop_byte (n : nat) :
  forall a b, (a < 256)%N -> (GF256.gf_mul_loop n a b < 256)%N.
Proof.
  induction n as [| n IH]; intros a b Ha; cbn [GF256.gf_mul_loop].
  - reflexivity.
  - apply lxor_byte.
    + destruct (N.odd b); [exact Ha | reflexivity].
    + apply IH, xtime_byte.
Qed.

Lemma horner_byte (coeffs : list N) (x : N) :
  Forall (fun c => (c < 256)%N) coeffs -> (horner coeffs x < 256)%N.
Proof.
  induction 1 as [| c rest Hc _ IH]; cbn [horner fold_right].
  - reflexivity.
  - unfold GF256.gf_add. apply lxor_byte; [exact Hc |].
    apply gf_mul_loop_byte. exact IH.
Qed.

Lemma quadratic_bytes (p : list N) :
  quadratic p -> Forall (fun c => (c < 256)%N) p.
Proof.
  intros (s & a & b & -> & Hs & Ha & Hb). repeat constructor; assumption.
Qed.

(** Shares in hexadecimal can be read back. *)
Lemma read_bytes_write_bytes (l : list N) :
  Forall (fun b => (b < 256)%N) l -> read_bytes (write_bytes l) = Some l.
Proof.
  assert (Hdigits :
    forall b, (b < 256)%N ->
      match digit_value (hex_digit (b / 16)),
            digit_value (hex_digit (b mod 16)) with
      | Some h, Some l => ((16 * h + l =? b)%N)
      | _, _ => false
      end = true).
  { apply EngineProps.forallb_bytes. vm_compute. reflexivity. }
  induction 1 as [| b rest Hb _ IH]; cbn [write_bytes read_bytes].
  - reflexivity.
  - specialize (Hdigits b Hb).
    destruct (digit_value (hex_digit (b / 16))) as [h |]; [| discriminate].
    destruct (digit_value (hex_digit (b mod 16))) as [l |];
      [| discriminate].
    rewrite IH. apply N.eqb_eq in Hdigits. rewrite Hdigits. reflexivity.
Qed.

Lemma read_share_write_share (polys : list (list N)) (x : nat) :
  Forall quadratic polys -> x < 256 ->
  read_share (write_share (share_at polys x))
  = Js.Return (share_at polys x).
Proof.
  intros Hq Hx. unfold read_share, write_share.
  rewrite read_bytes_write_bytes; [reflexivity |].
  cbn [share_at share_id share_data]. constructor; [lia |].
  apply Forall_map. revert Hq. apply Forall_impl.
  intros p Hp. apply horner_byte, quadratic_bytes, Hp.
Qed.

Lemma hex_shares_recover (rng : nat -> N) (key : string) (i j k : nat) :
  i < 256 -> j < 256 -> k < 256 ->
  interpolates (N.of_nat i) (N.of_nat j) (N.of_nat k) = true ->
  @combine _ _ hex_shares
    [write_share (share_at (key_polynomials rng key) i);
     write_share (share_at (key_polynomials rng key) j);
     write_share (share_at (key_polynomials rng key) k)]
  = Js.Return (secrets_str2hex key).
Proof.
  intros Hi Hj Hk Hchk.
  assert (Hq : Forall quadratic (key_polynomials rng key))
    by apply EngineProps.polynomials_quadratic, EngineProps.str2hex_bytes.
  cbn [combine hex_shares map_throwing].
  rewrite !read_share_write_share by assumption. cbn [Js.bind].
  rewrite EngineProps.combine_three, EngineProps.recombine_polynomials
    by assumption.
  unfold key_polynomials.
  rewrite EngineProps.polynomials_constant_terms. reflexivity.
Qed.

Lemma hex_shares_laws : ThresholdLaws hex_shares.
Proof.
  constructor.
  - apply EngineProps.hex2str_str2hex.
  - intros rng key. do 5 eexists. split; [reflexivity |].
    cbn [map subsets app].
    fold (key_polynomials rng key).
    repeat (constructor;
            [apply (hex_shares_recover rng key);
             [lia | lia | lia | vm_compute; reflexivity] |]).
    constructor.
Qed.

(** *** What the flows do with any libraries *)

Lemma map_throwing_throws {A B} (f : A -> Js.Result B) (l : list A)
    (a : A) (m : string) :
  In a l -> f a = Js.Throw m -> exists m', map_throwing f l = Js.Throw m'.
Proof.
  intros Hin Hthrow. induction l as [| x rest IH]; [contradiction |].
  cbn [map_throwing]. destruct Hin as [-> | Hin].
  - rewrite Hthrow. eexists. reflexivity.
  - destruct (f x) as [b | m0]; cbn [Js.bind]; [| eexists; reflexivity].
    destruct (IH Hin) as (m' & ->). eexists. reflexivity.
Qed.

(** X14: [splitKey] never hands out anything but five shares: whatever
    the library returns, the result is either the library's five shares or
    an exception. *)
Theorem splitKey_five_shares {Hex Share : Type}
    (secrets : Secrets.Api Hex Share) (rng : nat -> N) (aesKey : string)
    (shares : list Share) :
  splitKey secrets rng aesKey = Js.Return shares ->
  List.length shares = 5
  /\ share rng (str2hex aesKey) 5 3 = Js.Return shares.
Proof.
  unfold splitKey.
  destruct (share rng (str2hex aesKey) 5 3) as [l | m]; cbn [Js.bind];
    [| discriminate].
  destruct (Nat.eqb_spec (List.length l) 5) as [Hlen | _]; cbn [negb];
    [| discriminate].
  intros H. injection H as <-. split; [exact Hlen | reflexivity].
Qed.

(** The shares of the sample key. *)
Lemma splitKey_five_shares_witness :
  List.length (map (share_at (key_polynomials sample_rng sample_key))
                   [1; 2; 3; 4; 5]) = 5
  /\ @share _ _ spec_model sample_rng (@str2hex _ _ spec_model sample_key)
       5 3
     = Js.Return (map (share_at (key_polynomials sample_rng sample_key))
                      [1; 2; 3; 4; 5]).
Proof.
  apply (splitKey_five_shares spec_model sample_rng sample_key).
  reflexivity.
Defined.

Section AnyLibraries.
Context (nacl : Nacl.Api) (naclbox : NaclBox.Api) (json : Json.Api).
Context {Hex : Type} (secrets : Secrets.Api Hex string).


(** X16: [claimLegacy] unwraps every contract share before it counts: one
    contract share that does not unwrap makes it throw, also when the other
    shares at hand would have been enough. *)
Theorem claimLegacy_unwraps_all (heirShare : string)
    (walrusShare : option string) (encryptedContractShares : list string)
    (heirSecretKey encryptedBlob : string) (bad message : string) :
  In bad encryptedContractShares ->
  decryptShareAsHeir nacl naclbox json bad heirSecretKey
  = Js.Throw message ->
  exists message',
    claimLegacy nacl naclbox json secrets heirShare walrusShare
                encryptedContractShares heirSecretKey encryptedBlob
    = Js.Throw message'.
Proof.
  intros Hin Hbad. unfold claimLegacy.
  destruct (map_throwing_throws
              (fun encrypted =>
                 decryptShareAsHeir nacl naclbox json encrypted
                                    heirSecretKey)
              encryptedContractShares bad message Hin Hbad) as (m' & ->).
  exists m'. reflexivity.
Qed.

(** [claimLegacy] looks at the first three shares at hand and at nothing
    else: two calls whose contract shares all unwrap and whose first three
    shares at hand are the same give the same result, so a fourth and a
    fifth share, or an empty Walrus share instead of none, change
    nothing. *)
Lemma claimLegacy_first_three (heirShare heirShare' : string)
    (walrusShare walrusShare' : option string)
    (encryptedContractShares encryptedContractShares' : list string)
    (heirSecretKey encryptedBlob : string)
    (unwrapped unwrapped' : list string) :
  map_throwing (fun encrypted =>
                  decryptShareAsHeir nacl naclbox json encrypted
                                     heirSecretKey)
               encryptedContractShares
  = Js.Return unwrapped ->
  map_throwing (fun encrypted =>
                  decryptShareAsHeir nacl naclbox json encrypted
                                     heirSecretKey)
               encryptedContractShares'
  = Js.Return unwrapped' ->
  firstn 3 (availableShares heirShare walrusShare unwrapped)
  = firstn 3 (availableShares heirShare' walrusShare' unwrapped') ->
  claimLegacy nacl naclbox json secrets heirShare walrusShare
              encryptedContractShares heirSecretKey encryptedBlob
  = claimLegacy nacl naclbox json secrets heirShare' walrusShare'
                encryptedContractShares' heirSecretKey encryptedBlob.
Proof.
  intros Hmap Hmap' Hsame. unfold claimLegacy.
  rewrite Hmap, Hmap'. cbn [Js.bind]. rewrite Hsame. reflexivity.
Qed.

(** X17: a key from [generateAESKey] passes [isValidKey], when
    [randomBytes] gives the number of bytes asked for and Base64 decodes
    what it encoded. *)
Theorem generateAESKey_isValidKey (rng : nat -> N) :
  (forall r n, List.length (randomBytes r n) = n) ->
  (forall b, decodeBase64 (encodeBase64 b) = Js.Return b) ->
  isValidKey nacl (generateAESKey nacl rng) = true.
Proof.
  intros Hlen Hcodec. unfold isValidKey, generateAESKey.
  rewrite Hcodec, Hlen. reflexivity.
Qed.

End AnyLibraries.


(** Three shares at hand and a fourth that is no package. *)
Lemma claimLegacy_unwraps_all_witness :
  exists message',
    claimLegacy clear_box clear_envelope prefixed_text hex_shares
                "0111c9" (Some "0222d5")
                [write_package {| ciphertext := "0333e1";
                                  Json.nonce := "";
                                  ephemeralPublicKey := "" |};
                 "not a package"]
                "secret key" "blob"
    = Js.Throw message'.
Proof.
  apply (claimLegacy_unwraps_all clear_box clear_envelope prefixed_text
           hex_shares) with (bad := "not a package")
                            (message := "Unexpected token").
  - cbn. auto.
  - reflexivity.
Defined.

(** An empty Walrus share and a fourth share on one side, no Walrus share
    and three shares on the other. *)
Example claimLegacy_first_three_empty_walrus :
  let wrap s := write_package {| ciphertext := s; Json.nonce := "";
                                 ephemeralPublicKey := "" |} in
  claimLegacy clear_box clear_envelope prefixed_text hex_shares
              "0111c9" (Some "") [wrap "0333e1"; wrap "0444f2"; wrap "0555a3"]
              "" "blob"
  = claimLegacy clear_box clear_envelope prefixed_text hex_shares
                "0111c9" None [wrap "0333e1"; wrap "0444f2"] "" "blob".
Proof.
  cbv zeta.
  apply (claimLegacy_first_three clear_box clear_envelope prefixed_text
           hex_shares) with (unwrapped := ["0333e1"; "0444f2"; "0555a3"])
                            (unwrapped' := ["0333e1"; "0444f2"]).
  - vm_compute. reflexivity.
  - vm_compute. reflexivity.
  - reflexivity.
Defined.

(** A key drawn with the randomness of the examples. *)
Lemma generateAESKey_isValidKey_witness :
  isValidKey clear_box (generateAESKey clear_box sample_rng) = true.
Proof.
  apply (generateAESKey_isValidKey clear_box sample_rng).
  - apply (randomBytes_length _ clear_box_laws).
  - apply (decodeBase64_encodeBase64 _ clear_box_laws).
Defined.

(** *** What the flows do with libraries that meet the contract *)

Section LawfulLibraries.
Context (nacl : Nacl.Api) (naclbox : NaclBox.Api) (json : Json.Api).
Context {Hex : Type} (secrets : Secrets.Api Hex string).
Hypothesis secretbox_laws : SecretBoxLaws nacl.
Hypothesis box_laws : BoxLaws nacl naclbox.
Hypothesis json_laws : JsonLaws json.
Hypothesis threshold_laws : ThresholdLaws secrets.

(** Proves that a share wrapped for a generated key pair unwraps. *)
Ltac wrap_then_unwrap share rngKeys rngNonce rngHeir :=
  let b := fresh "b" in
  let Hb := fresh "Hb" in
  let c := fresh "c" in
  let Hc := fresh "Hc" in
  unfold encryptShareForHeir, decryptShareAsHeir, generateKeyPair;
  cbn [publicKey secretKey];
  rewrite (decodeBase64_encodeBase64 _ secretbox_laws);
  cbn [Js.bind];
  destruct (decodeUTF8_returns _ secretbox_laws share) as [b Hb];
  rewrite Hb; cbn [Js.bind];
  destruct (box_returns _ _ box_laws b
              (randomBytes rngNonce box_nonceLength) rngKeys rngHeir
              (randomBytes_length _ secretbox_laws _ _)) as [c Hc];
  rewrite Hc; cbn [Js.bind];
  eexists; split; [reflexivity |];
  rewrite (parse_stringify _ json_laws);
  cbn [Js.bind ciphertext Json.nonce ephemeralPublicKey];
  rewrite !(decodeBase64_encodeBase64 _ secretbox_laws);
  cbn [Js.bind];
  rewrite (box_open_box _ _ box_laws _ _ _ _ _ Hc);
  cbn [Js.bind];
  apply (encodeUTF8_decodeUTF8 _ secretbox_laws); exact Hb.

(** X18: a share wrapped by [encryptShareForHeir] for the public key of a
    pair from [generateKeyPair] comes back from [decryptShareAsHeir] with
    the secret key of that pair, whatever ephemeral keys and nonce the
    wrapping drew. *)
Theorem decryptShareAsHeir_encryptShareForHeir
    (rngKeys rngNonce rngHeir : nat -> N) (share : string) :
  let heir := generateKeyPair nacl naclbox rngHeir in
  exists wrapped,
    encryptShareForHeir nacl naclbox json rngKeys rngNonce share
                        (publicKey heir) = Js.Return wrapped
    /\ decryptShareAsHeir nacl naclbox json wrapped (secretKey heir)
       = Js.Return share.
Proof.
  cbv zeta. unfold encryptShareForHeir, generateKeyPair.
  cbn [publicKey secretKey].
  rewrite (decodeBase64_encodeBase64 _ secretbox_laws). cbn [Js.bind].
  destruct (decodeUTF8_returns _ secretbox_laws share) as [bytes Hbytes].
  rewrite Hbytes. cbn [Js.bind].
  destruct (box_returns _ _ box_laws bytes
              (randomBytes rngNonce box_nonceLength) rngKeys rngHeir
              (randomBytes_length _ secretbox_laws _ _)) as [boxed Hboxed].
  rewrite Hboxed. cbn [Js.bind].
  eexists. split; [reflexivity |].
  unfold decryptShareAsHeir.
  rewrite (parse_stringify _ json_laws).
  cbn [Js.bind ciphertext Json.nonce ephemeralPublicKey].
  rewrite !(decodeBase64_encodeBase64 _ secretbox_laws). cbn [Js.bind].
  rewrite (box_open_box _ _ box_laws _ _ _ _ _ Hboxed). cbn [Js.bind].
  apply (encodeUTF8_decodeUTF8 _ secretbox_laws). exact Hbytes.
Qed.

(** X19: the whole way: for every note, [createLegacyPayload] returns a
    payload with three contract shares, and [claimLegacy] gets the note
    back from it with the heir's secret key, both from all the shares and,
    without the Walrus share, from the heir's share and two of the contract
    shares. *)
Theorem claimLegacy_createLegacyPayload (entropy : nat -> nat -> N)
    (rngHeir : nat -> N) (secretNote : string) :
  let heir := generateKeyPair nacl naclbox rngHeir in
  exists payload,
    createLegacyPayload nacl naclbox json secrets entropy secretNote
                        (publicKey heir) = Js.Return payload
    /\ List.length (contractShares payload) = 3
    /\ claimLegacy nacl naclbox json secrets (heirShare payload)
                   (Some (walrusShare payload)) (contractShares payload)
                   (secretKey heir) (encryptedBlob payload)
       = Js.Return secretNote
    /\ claimLegacy nacl naclbox json secrets (heirShare payload) None
                   (firstn 2 (contractShares payload))
                   (secretKey heir) (encryptedBlob payload)
       = Js.Return secretNote.
Proof.
  cbv zeta.
  set (aesKey := generateAESKey nacl (entropy 0)).
  (* the note under the key *)
  destruct (decodeUTF8_returns _ secretbox_laws secretNote)
    as [noteBytes HnoteBytes].
  destruct (EngineProps.decryptPayload_encryptPayload nacl
              (randomBytes_length _ secretbox_laws)
              (decodeBase64_encodeBase64 _ secretbox_laws)
              (encodeUTF8_decodeUTF8 _ secretbox_laws)
              (secretbox_returns _ secretbox_laws)
              (secretbox_open_secretbox _ secretbox_laws)
              (entropy 1) secretNote aesKey (randomBytes (entropy 0) 32)
              noteBytes)
    as (blob & Hencrypt & Hdecrypt).
  { apply (decodeBase64_encodeBase64 _ secretbox_laws). }
  { rewrite (randomBytes_length _ secretbox_laws).
    symmetry. apply (keyLength_32 _ secretbox_laws). }
  { exact HnoteBytes. }
  (* the key in five shares *)
  destruct (combine_share _ threshold_laws (entropy 2) aesKey)
    as (s1 & s2 & s3 & s4 & s5 & Hshare & Hany).
  rewrite Forall_forall in Hany.
  (* the three shares of the contract *)
  assert (Hwrap : forall rngKeys rngNonce share,
    exists wrapped,
      encryptShareForHeir nacl naclbox json rngKeys rngNonce share
        (publicKey (generateKeyPair nacl naclbox rngHeir))
      = Js.Return wrapped
      /\ decryptShareAsHeir nacl naclbox json wrapped
           (secretKey (generateKeyPair nacl naclbox rngHeir))
         = Js.Return share).
  { intros rngKeys rngNonce share.
    wrap_then_unwrap share rngKeys rngNonce rngHeir. }
  destruct (Hwrap (entropy 3) (entropy 4) s3) as (w3 & Hw3 & Hu3).
  destruct (Hwrap (entropy 5) (entropy 6) s4) as (w4 & Hw4 & Hu4).
  destruct (Hwrap (entropy 7) (entropy 8) s5) as (w5 & Hw5 & Hu5).
  exists {| heirShare := s1; walrusShare := s2;
            contractShares := [w3; w4; w5]; encryptedBlob := blob |}.
  assert (Hrecover : forall three,
            In three (subsets 3 [s1; s2; s3; s4; s5]) ->
            List.length three = 3 ->
            Js.bind (recoverKey secrets three)
                    (fun key => decryptPayload nacl blob key)
            = Js.Return secretNote).
  { intros three Hin Hlen. unfold recoverKey. rewrite Hlen.
    cbn [Nat.ltb Nat.leb]. rewrite (Hany three Hin). cbn [Js.bind].
    rewrite (hex2str_str2hex _ threshold_laws). exact Hdecrypt. }
  split; [| split; [reflexivity | split]].
  - unfold createLegacyPayload. fold aesKey.
    rewrite Hencrypt. cbn [Js.bind].
    unfold splitKey. rewrite Hshare. cbn [Js.bind List.length Nat.eqb negb].
    cbn [nth]. rewrite Hw3. cbn [Js.bind]. rewrite Hw4. cbn [Js.bind].
    rewrite Hw5. reflexivity.
  - unfold claimLegacy.
    cbn [heirShare walrusShare contractShares encryptedBlob map_throwing].
    rewrite Hu3. cbn [Js.bind]. rewrite Hu4. cbn [Js.bind].
    rewrite Hu5. cbn [Js.bind].
    unfold availableShares.
    destruct s2 as [| ch s2']; cbn [truthy app firstn List.length Nat.ltb
                                    Nat.leb];
      apply Hrecover; cbn; auto 10.
  - unfold claimLegacy.
    cbn [heirShare walrusShare contractShares encryptedBlob map_throwing
         firstn].
    rewrite Hu3. cbn [Js.bind]. rewrite Hu4. cbn [Js.bind].
    unfold availableShares.
    cbn [truthy app firstn List.length Nat.ltb Nat.leb].
    apply Hrecover; cbn; auto 10.
Qed.

End LawfulLibraries.

(** A share wrapped and unwrapped with the libraries of the examples. *)
Lemma decryptShareAsHeir_encryptShareForHeir_witness :
  let heir := generateKeyPair clear_box clear_envelope sample_rng in
  exists wrapped,
    encryptShareForHeir clear_box clear_envelope prefixed_text
                        (sample_entropy 3) (sample_entropy 4) "0333e1"
                        (publicKey heir) = Js.Return wrapped
    /\ decryptShareAsHeir clear_box clear_envelope prefixed_text wrapped
                          (secretKey heir)
       = Js.Return "0333e1".
Proof.
  apply (decryptShareAsHeir_encryptShareForHeir clear_box clear_envelope
           prefixed_text clear_box_laws clear_envelope_laws
           prefixed_text_laws).
Defined.

(** A note protected and claimed with the libraries of the examples. *)
Lemma claimLegacy_createLegacyPayload_witness :
  let heir := generateKeyPair clear_box clear_envelope sample_rng in
  exists payload,
    createLegacyPayload clear_box clear_envelope prefixed_text hex_shares
                        sample_entropy "Another secret message"
                        (publicKey heir) = Js.Return payload
    /\ List.length (contractShares payload) = 3
    /\ claimLegacy clear_box clear_envelope prefixed_text hex_shares
                   (heirShare payload) (Some (walrusShare payload))
                   (contractShares payload) (secretKey heir)
                   (encryptedBlob payload)
       = Js.Return "Another secret message"
    /\ claimLegacy clear_box clear_envelope prefixed_text hex_shares
                   (heirShare payload) None
                   (firstn 2 (contractShares payload)) (secretKey heir)
                   (encryptedBlob payload)
       = Js.Return "Another secret message".
Proof.
  apply (claimLegacy_createLegacyPayload clear_box clear_envelope
           prefixed_text hex_shares clear_box_laws clear_envelope_laws
           prefixed_text_laws hex_shares_laws).
Defined.

End FlowProps.
